(** * Brands service: schema-conformance repair

    A shallow embedding of the Brands service (brands.service.ts), its
    validation wrapper (shared/utlis/validate.ts) and the fragment of the
    JavaScript host and of the Joi validator that they run on.

    Modelling decisions, all visible in the definitions below:
    - a JavaScript object is an association list in property order
      (Object.keys order); assignment updates a property in place or
      appends it, [delete] removes it;
    - numbers are the integers plus NaN (year and location counts); strings
      are ASCII;
    - what the code reads from its environment (the calendar year, the
      host's Date and JSON parsers, the Mongoose model, the faker
      generator) is a parameter. *)

From Stdlib Require Import String Ascii List ZArith Lia Bool DecimalString.
From ExtLib Require Import Structures.Monad Structures.MonadState Data.Monads.StateMonad.
Import ListNotations.
Import MonadNotation.

Set Warnings "-register-all".

Local Open Scope monad_scope.
Local Open Scope string_scope.
Local Open Scope Z_scope.

(* ------------------------------------------------------------------ *)
(** ** JavaScript values and objects *)

Module JS.

Inductive value : Type :=
| Undefined
| Null
| Boolean (b : bool)
| Num (z : Z)
| NaN
| Str (s : string)
| Date (t : Z)                         (* a valid Date, as its time value *)
| ObjectId (hex : string)              (* a bson ObjectId, as its hex string *)
| Obj (props : list (string * value)).

Definition object := list (string * value).

(** [o[k]]: the first property named [k], [undefined] when there is none. *)
Fixpoint get (k : string) (o : object) : value :=
  match o with
  | [] => Undefined
  | (k', v) :: rest => if String.eqb k k' then v else get k rest
  end.

Fixpoint hasOwn (k : string) (o : object) : bool :=
  match o with
  | [] => false
  | (k', _) :: rest => String.eqb k k' || hasOwn k rest
  end.

(** [o[k] = v]: in place when the property exists, appended otherwise. *)
Fixpoint set (k : string) (v : value) (o : object) : object :=
  match o with
  | [] => [(k, v)]
  | (k', v') :: rest =>
      if String.eqb k k' then (k', v) :: rest else (k', v') :: set k v rest
  end.

(** [delete o[k]]. *)
Fixpoint delete (k : string) (o : object) : object :=
  match o with
  | [] => []
  | (k', v') :: rest =>
      if String.eqb k k' then delete k rest else (k', v') :: delete k rest
  end.

(** [Object.keys(o)]. *)
Definition keys (o : object) : list string := map fst o.

(** ToBoolean. *)
Definition truthy (v : value) : bool :=
  match v with
  | Undefined | Null | NaN => false
  | Boolean b => b
  | Num z => negb (z =? 0)
  | Str s => negb (String.eqb s "")
  | Date _ | ObjectId _ | Obj _ => true
  end.

(** *** Characters and strings *)

Definition code (c : ascii) : nat := nat_of_ascii c.

Definition isDigit (c : ascii) : bool :=
  (Nat.leb 48 (code c) && Nat.leb (code c) 57)%bool.

(** The ASCII part of WhiteSpace and LineTerminator: TAB, LF, VT, FF, CR, SP. *)
Definition isWhiteSpace (c : ascii) : bool :=
  (Nat.leb 9 (code c) && Nat.leb (code c) 13 || Nat.eqb (code c) 32)%bool.

Definition lowerChar (c : ascii) : ascii :=
  if (Nat.leb 65 (code c) && Nat.leb (code c) 90)%bool
  then ascii_of_nat (code c + 32) else c.

(** [s.toLowerCase()]. *)
Fixpoint toLowerCase (s : string) : string :=
  match s with
  | EmptyString => EmptyString
  | String c r => String (lowerChar c) (toLowerCase r)
  end.

(** [s.includes(sub)]. *)
Fixpoint includes (sub s : string) : bool :=
  String.prefix sub s ||
  match s with
  | EmptyString => false
  | String _ r => includes sub r
  end.

Fixpoint trimStart (s : string) : string :=
  match s with
  | String c r => if isWhiteSpace c then trimStart r else s
  | EmptyString => EmptyString
  end.

Fixpoint isBlank (s : string) : bool :=
  match s with
  | EmptyString => true
  | String c r => isWhiteSpace c && isBlank r
  end.

Fixpoint trimEnd (s : string) : string :=
  match s with
  | EmptyString => EmptyString
  | String c r => if isBlank s then EmptyString else String c (trimEnd r)
  end.

(** [s.trim()]. *)
Definition trim (s : string) : string := trimEnd (trimStart s).

(** The longest prefix of characters satisfying [p], and what follows it. *)
Fixpoint span (p : ascii -> bool) (s : string) : string * string :=
  match s with
  | String c r =>
      if p c then let '(a, b) := span p r in (String c a, b) else (EmptyString, s)
  | EmptyString => (EmptyString, EmptyString)
  end.

Definition isEmpty (s : string) : bool :=
  match s with EmptyString => true | _ => false end.

(** The value of a digit in a radix up to 16, when it is one. *)
Definition digitValue (radix : nat) (c : ascii) : option Z :=
  let n := code c in
  let d :=
    if (Nat.leb 48 n && Nat.leb n 57)%bool then Some (n - 48)%nat
    else if (Nat.leb 97 n && Nat.leb n 102)%bool then Some (n - 87)%nat
    else if (Nat.leb 65 n && Nat.leb n 70)%bool then Some (n - 55)%nat
    else None in
  match d with
  | Some d => if Nat.ltb d radix then Some (Z.of_nat d) else None
  | None => None
  end.

Definition isRadixDigit (radix : nat) (c : ascii) : bool :=
  match digitValue radix c with Some _ => true | None => false end.

(** The number written by a string of digits, most significant first. *)
Fixpoint digitsValue (radix : nat) (acc : Z) (s : string) : Z :=
  match s with
  | EmptyString => acc
  | String c r =>
      match digitValue radix c with
      | Some d => digitsValue radix (acc * Z.of_nat radix + d) r
      | None => acc
      end
  end.

Definition stripSign (s : string) : bool * string :=
  match s with
  | String "-" r => (true, r)
  | String "+" r => (false, r)
  | _ => (false, s)
  end.

(** The prefix of a hexadecimal, octal or binary integer literal, as its
    radix and what follows. *)
Definition radixPrefix (s : string) : option (nat * string) :=
  match s with
  | String "0" (String "x" r) | String "0" (String "X" r) => Some (16%nat, r)
  | String "0" (String "o" r) | String "0" (String "O" r) => Some (8%nat, r)
  | String "0" (String "b" r) | String "0" (String "B" r) => Some (2%nat, r)
  | _ => None
  end.

(** [parseInt(s)] on a string: leading white space, a sign, an optional
    [0x] prefix (the only one parseInt knows), then the longest run of
    digits; NaN when that run is empty. *)
Definition parseIntString (s : string) : value :=
  let '(neg, s1) := stripSign (trimStart s) in
  let '(radix, s2) :=
    match radixPrefix s1 with
    | Some (16%nat, r) => (16%nat, r)
    | _ => (10%nat, s1)
    end in
  let '(ds, _) := span (isRadixDigit radix) s2 in
  if isEmpty ds then NaN
  else let n := digitsValue radix 0 ds in Num (if neg then - n else n).

(** An optional ExponentPart that ends the string, as its exponent. *)
Definition exponentPart (s : string) : option Z :=
  match s with
  | EmptyString => Some 0
  | String c r =>
      if (Ascii.eqb c "e" || Ascii.eqb c "E")%bool then
        let '(neg, r1) := stripSign r in
        let '(ds, rest) := span isDigit r1 in
        if (negb (isEmpty ds) && isEmpty rest)%bool
        then Some (let n := digitsValue 10 0 ds in if neg then - n else n)
        else None
      else None
  end.

(** StrUnsignedDecimalLiteral without [Infinity]: digits with an optional
    fraction, or a fraction alone, then an optional exponent; read as the
    integer digits, the fraction digits and the exponent. *)
Definition decimalParts (s : string) : option (string * string * Z) :=
  let '(d1, r1) := span isDigit s in
  match r1 with
  | String "." r2 =>
      let '(d2, r3) := span isDigit r2 in
      if (isEmpty d1 && isEmpty d2)%bool then None
      else option_map (fun e => (d1, d2, e)) (exponentPart r3)
  | _ =>
      if isEmpty d1 then None
      else option_map (fun e => (d1, EmptyString, e)) (exponentPart r1)
  end.

Definition unsignedDecimal (s : string) : bool :=
  match decimalParts s with Some _ => true | None => false end.

Definition allRadixDigits (radix : nat) (s : string) : bool :=
  let '(ds, rest) := span (isRadixDigit radix) s in
  negb (isEmpty ds) && isEmpty rest.

(** Whether [Number(s)] is a number: StringNumericLiteral, that is white
    space around nothing, a signed decimal literal or [Infinity], or an
    unsigned binary, octal or hexadecimal integer. *)
Definition isNumericString (s : string) : bool :=
  let t := trim s in
  if isEmpty t then true
  else
    match radixPrefix t with
    | Some (radix, r) => allRadixDigits radix r
    | None =>
        let '(_, u) := stripSign t in
        String.eqb u "Infinity" || unsignedDecimal u
    end.

(** The global [isNaN(v)], that is [Number(v)] is NaN. An ObjectId converts
    through its hex string, a plain object through ["[object Object]"]. *)
Definition isNaN (v : value) : bool :=
  match v with
  | Undefined | NaN | Obj _ => true
  | Null | Boolean _ | Num _ | Date _ => false
  | Str s | ObjectId s => negb (isNumericString s)
  end.

(** The first decimal digit of a positive integer. *)
Definition leadingDigit (z : Z) : Z :=
  match NilEmpty.string_of_uint (N.to_uint (Z.to_N z)) with
  | String c _ => Z.of_nat (code c - 48)
  | EmptyString => 0
  end.

(** [parseInt(v)]: [v] is converted to a string first. A number from 1e21
    on prints in exponent notation, of which parseInt reads the first digit;
    [true], [null], [undefined], a Date and a plain object print as text
    that starts with no digit. *)
Definition parseInt (v : value) : value :=
  match v with
  | Str s | ObjectId s => parseIntString s
  | Num z =>
      if Z.abs z <? 10 ^ 21 then Num z
      else Num (Z.sgn z * leadingDigit (Z.abs z))
  | Undefined | Null | Boolean _ | NaN | Date _ | Obj _ => NaN
  end.

(** [v?.name]. *)
Definition optionalName (v : value) : value :=
  match v with
  | Obj props => get "name" props
  | _ => Undefined
  end.

(** A property key made from the result of [Array.prototype.find]:
    [undefined] names the property ["undefined"]. *)
Definition propertyKey (k : option string) : string :=
  match k with Some k => k | None => "undefined" end.

End JS.

Import JS.

(* ------------------------------------------------------------------ *)
(** ** The environment the service reads *)

(** [currentYear] is [new Date().getFullYear()], [DateParse] the host's
    parser of date strings (the time value of [new Date(s)], when valid) and
    [JSONParse] its JSON parser (no result when it throws). *)
Record Host : Type := {
  currentYear : Z;
  DateParse : string -> option Z;
  JSONParse : string -> option value
}.

(* ------------------------------------------------------------------ *)
(** ** Joi: the schemas the service builds and how they validate

    Joi is a dependency of the service. What is modelled is the validation
    of an object schema with keys: the coercions, presence, base types, rules
    and defaults that the service's schemas use, the order in which errors
    are reported and their [context]. Arrays are not among the values. *)

Module Joi.

(** The two preferences the service passes to [Schema.validate]. *)
Record Preferences : Type := { abortEarly : bool; convert : bool }.

Inductive BaseType : Type := TObject | TString | TNumber | TDate.

(** A schema of one key: its base type, presence, rules and default. *)
Record Schema : Type := {
  base : BaseType;
  presenceRequired : bool;
  ruleTrim : bool;
  ruleMin : option Z;
  ruleMax : option Z;
  flagDefault : option value
}.

Definition any (t : BaseType) : Schema :=
  {| base := t; presenceRequired := false; ruleTrim := false;
     ruleMin := None; ruleMax := None; flagDefault := None |}.

Definition object : Schema := any TObject.
Definition string : Schema := any TString.
Definition number : Schema := any TNumber.
Definition date : Schema := any TDate.

Definition required (s : Schema) : Schema :=
  {| base := base s; presenceRequired := true; ruleTrim := ruleTrim s;
     ruleMin := ruleMin s; ruleMax := ruleMax s; flagDefault := flagDefault s |}.

Definition trim (s : Schema) : Schema :=
  {| base := base s; presenceRequired := presenceRequired s; ruleTrim := true;
     ruleMin := ruleMin s; ruleMax := ruleMax s; flagDefault := flagDefault s |}.

Definition min (limit : Z) (s : Schema) : Schema :=
  {| base := base s; presenceRequired := presenceRequired s; ruleTrim := ruleTrim s;
     ruleMin := Some limit; ruleMax := ruleMax s; flagDefault := flagDefault s |}.

Definition max (limit : Z) (s : Schema) : Schema :=
  {| base := base s; presenceRequired := presenceRequired s; ruleTrim := ruleTrim s;
     ruleMin := ruleMin s; ruleMax := Some limit; flagDefault := flagDefault s |}.

Definition default (v : value) (s : Schema) : Schema :=
  {| base := base s; presenceRequired := presenceRequired s; ruleTrim := ruleTrim s;
     ruleMin := ruleMin s; ruleMax := ruleMax s; flagDefault := Some v |}.

(** [Joi.object({...})]: the keys in the order they are written. *)
Definition ObjectSchema : Type := list (String.string * Schema).

(** One entry of [error.details]: the error type, [context.key] and
    [context.value]. *)
Record Detail : Type := {
  type : String.string;
  contextKey : String.string;
  contextValue : value
}.

(** [{ value, error }]; [error] is absent when nothing failed, and otherwise
    carries [details]. *)
Record Result : Type := {
  value : JS.object;
  error : option (list Detail)
}.

Definition MAX_SAFE_INTEGER : Z := 9007199254740991.
Definition MAX_TIME : Z := 8640000000000000.

(** The number a decimal literal writes, when it is an integer. *)
Definition integralValue (parts : String.string * String.string * Z) : option Z :=
  let '(d1, d2, e) := parts in
  let m := digitsValue 10 0 (d1 ++ d2) in
  let scale := e - Z.of_nat (String.length d2) in
  if 0 <=? scale then Some (m * 10 ^ scale)
  else if m mod 10 ^ (- scale) =? 0 then Some (m / 10 ^ (- scale))
  else None.

(** The number type's coercion of a string: white space around a signed
    decimal literal. Literals that write no integer stay strings here. *)
Definition numberLiteral (s : String.string) : option Z :=
  let '(neg, u) := stripSign (JS.trim s) in
  match decimalParts u with
  | Some parts => option_map (fun n => if neg then - n else n) (integralValue parts)
  | None => None
  end.

(** The date type's reading of a string of digits with an optional fraction
    as a time value (the fraction is clipped). *)
Definition timeLiteral (s : String.string) : option Z :=
  let '(neg, u) := stripSign s in
  let '(d1, r1) := span isDigit u in
  let whole := let n := digitsValue 10 0 d1 in if neg then - n else n in
  if isEmpty d1 then None
  else
    match r1 with
    | EmptyString => Some whole
    | String "." r2 =>
        let '(d2, r3) := span isDigit r2 in
        if (negb (isEmpty d2) && isEmpty r3)%bool then Some whole else None
    | _ => None
    end.

Definition dateOfTime (fallback : JS.value) (t : Z) : JS.value :=
  if Z.abs t <=? MAX_TIME then Date t else fallback.

(** The coercion each base type applies first, when [convert] is on. *)
Definition coerce (h : Host) (s : Schema) (v : JS.value) : JS.value :=
  match base s, v with
  | TString, Str x => if ruleTrim s then Str (JS.trim x) else v
  | TNumber, Str x =>
      match numberLiteral x with Some z => Num z | None => v end
  | TDate, Num t => dateOfTime v t
  | TDate, Str x =>
      if isBlank x then v
      else
        match timeLiteral x with
        | Some t => dateOfTime v t
        | None => match DateParse h x with Some t => dateOfTime v t | None => v end
        end
  | TObject, Str x =>
      match trimStart x with
      | String "{" _ => match JSONParse h x with Some o => o | None => v end
      | _ => v
      end
  | _, _ => v
  end.

(** The base type's own check; an error here ends the key's validation. *)
Definition validateBase (s : Schema) (v : JS.value) : list String.string :=
  match base s, v with
  | TObject, (Obj _ | ObjectId _ | Date _) => []
  | TObject, _ => ["object.base"]
  | TString, Str x => if isEmpty x then ["string.empty"] else []
  | TString, _ => ["string.base"]
  | TNumber, Num z => if Z.abs z <=? MAX_SAFE_INTEGER then [] else ["number.unsafe"]
  | TNumber, _ => ["number.base"]
  | TDate, Date _ => []
  | TDate, _ => ["date.base"]
  end.

(** The rules in the order they were added; [trim] is a conversion rule and
    is skipped when [convert] is on. Each rule reports its own error. *)
Definition validateRules (p : Preferences) (s : Schema) (v : JS.value) : list String.string :=
  match v with
  | Str x =>
      if (ruleTrim s && negb (convert p) && negb (String.eqb x (JS.trim x)))%bool
      then ["string.trim"] else []
  | Num z =>
      ((match ruleMin s with
        | Some limit => if limit <=? z then [] else ["number.min"]
        | None => []
        end)
       ++
       (match ruleMax s with
        | Some limit => if z <=? limit then [] else ["number.max"]
        | None => []
        end))%list
  | _ => []
  end.

(** The last step: a value that is still [undefined] takes the default. *)
Definition finalize (s : Schema) (v : JS.value) : JS.value :=
  match v, flagDefault s with
  | Undefined, Some d => d
  | _, _ => v
  end.

(** Validation of one key's value: the resulting value and the error types
    raised, each with the value it was raised on. *)
Definition validateChild (h : Host) (p : Preferences) (s : Schema) (item : JS.value)
  : JS.value * list (String.string * JS.value) :=
  let v := if convert p then coerce h s item else item in
  match v with
  | Undefined =>
      (finalize s v, if presenceRequired s then [("any.required", Undefined)] else [])
  | _ =>
      match validateBase s v with
      | (_ :: _) as es => (finalize s v, map (fun e => (e, v)) es)
      | [] =>
          let es := validateRules p s v in
          (finalize s v, map (fun e => (e, v)) (if abortEarly p then firstn 1 es else es))
      end
  end.

Definition detail (k : String.string) (e : String.string * JS.value) : Detail :=
  {| type := fst e; contextKey := k; contextValue := snd e |}.

Definition isUndefined (v : JS.value) : bool :=
  match v with Undefined => true | _ => false end.

(** The loop over the schema's keys. The third component tells that the
    loop returned at the first error ([abortEarly]). *)
Fixpoint validateKeys (h : Host) (p : Preferences) (ks : ObjectSchema) (value : JS.object)
  : JS.object * list Detail * bool :=
  match ks with
  | [] => (value, [], false)
  | (k, s) :: rest =>
      let item := get k value in
      let '(v, es) := validateChild h p s item in
      match es with
      | [] =>
          let value1 :=
            if isUndefined v
            then (if isUndefined item then value else delete k value)
            else set k v value in
          validateKeys h p rest value1
      | _ :: _ =>
          if abortEarly p then (value, map (detail k) es, true)
          else
            let value1 := if isUndefined v then value else set k v value in
            let '(value2, ds, aborted) := validateKeys h p rest value1 in
            (value2, (map (detail k) es ++ ds)%list, aborted)
      end
  end.

Definition isKnown (ks : ObjectSchema) (k : String.string) : bool :=
  existsb (fun e => String.eqb k (fst e)) ks.

(** The keys of the data that the schema does not name, each reported as
    [object.unknown] with the value it holds. *)
Definition unknownKeys (ks : ObjectSchema) (data value : JS.object) : list Detail :=
  map (fun k => {| type := "object.unknown"; contextKey := k; contextValue := get k value |})
      (filter (fun k => negb (isKnown ks k)) (keys data)).

(** [Schema.validate(data, preferences)] on an object schema with keys:
    the data is copied, the schema's keys are validated in order, then the
    remaining keys are reported. *)
Definition validate (h : Host) (ks : ObjectSchema) (data : JS.object) (p : Preferences) : Result :=
  let '(v, ds, aborted) := validateKeys h p ks data in
  let ds :=
    if aborted then ds
    else
      let unknown := unknownKeys ks data v in
      if abortEarly p then firstn 1 unknown else (ds ++ unknown)%list in
  {| value := v; error := match ds with [] => None | _ :: _ => Some ds end |}.

End Joi.

(* ------------------------------------------------------------------ *)
(** ** The Mongoose model, as far as the service calls it *)

Module Mongoose.

(** One operation of a bulk write: [{ replaceOne: { filter: { _id }, replacement } }]. *)
Inductive BulkOp : Type :=
| replaceOne (filter_id : value) (replacement : JS.object).

(** [find().lean().exec()] resolves to the stored documents, [bulkWrite]
    to a result with its [modifiedCount], [insertMany] to the inserted
    documents; each may reject instead (no result). *)
Record Model : Type := {
  find : option (list JS.object);
  bulkWrite : list BulkOp -> option Z;
  insertMany : list JS.object -> option (list JS.object)
}.

(** The calls a request makes on the model, in order. *)
Inductive Call : Type :=
| CallFind
| CallBulkWrite (ops : list BulkOp)
| CallInsertMany (docs : list JS.object).

Definition isWrite (c : Call) : bool :=
  match c with CallFind => false | CallBulkWrite _ | CallInsertMany _ => true end.

Fixpoint valueEqb (a b : value) : bool :=
  match a, b with
  | Undefined, Undefined | Null, Null | NaN, NaN => true
  | Boolean x, Boolean y => Bool.eqb x y
  | Num x, Num y => x =? y
  | Str x, Str y | ObjectId x, ObjectId y => String.eqb x y
  | Date x, Date y => x =? y
  | Obj p, Obj q =>
      (fix propsEqb (p q : list (string * value)) : bool :=
         match p, q with
         | [], [] => true
         | (k, v) :: p', (k', v') :: q' =>
             String.eqb k k' && valueEqb v v' && propsEqb p' q'
         | _, _ => false
         end) p q
  | _, _ => false
  end.

(** A collection held in memory. A replaceOne matches the first document
    whose [_id] is the filter's, keeps that [_id] and replaces the rest; it
    counts as modified when the document changed. *)
Fixpoint replaceFirst (id : value) (replacement : JS.object) (docs : list JS.object)
  : list JS.object * Z :=
  match docs with
  | [] => ([], 0)
  | d :: rest =>
      if valueEqb (get "_id" d) id then
        let d' := ("_id", get "_id" d) :: replacement in
        (d' :: rest, if valueEqb (Obj d) (Obj d') then 0 else 1)
      else
        let '(rest', n) := replaceFirst id replacement rest in (d :: rest', n)
  end.

Fixpoint applyBulk (ops : list BulkOp) (docs : list JS.object) : list JS.object * Z :=
  match ops with
  | [] => (docs, 0)
  | replaceOne id replacement :: rest =>
      let '(docs1, n) := replaceFirst id replacement docs in
      let '(docs2, m) := applyBulk rest docs1 in
      (docs2, n + m)
  end.

Definition memoryModel (docs : list JS.object) : Model :=
  {| find := Some docs;
     bulkWrite := fun ops => Some (snd (applyBulk ops docs));
     insertMany := fun new => Some new |}.

End Mongoose.

(* ------------------------------------------------------------------ *)
(** ** shared/utlis/validate.ts *)

Definition validate (host : Host) (data : JS.object) (Schema : Joi.ObjectSchema) : Joi.Result :=
  Joi.validate host Schema data {| Joi.abortEarly := false; Joi.convert := true |}.

(** The preferences [validate] passes, by name. *)
Definition collectAll : Joi.Preferences := {| Joi.abortEarly := false; Joi.convert := true |}.

(** [error.details], empty when there is no error. *)
Definition details (r : Joi.Result) : list Joi.Detail :=
  match Joi.error r with Some ds => ds | None => [] end.

(** The errors of one key of a schema, from the value the data holds under
    that key and from nothing else. *)
Definition fieldErrors (h : Host) (p : Joi.Preferences) (data : JS.object)
           (entry : string * Joi.Schema) : list Joi.Detail :=
  map (Joi.detail (fst entry)) (snd (Joi.validateChild h p (snd entry) (get (fst entry) data))).

(** Whether a brand fails the canonical schema. *)
Definition isInvalid (h : Host) (Schema : Joi.ObjectSchema) (brand : JS.object) : bool :=
  match Joi.error (validate h brand Schema) with Some _ => true | None => false end.

(** The error of a key that the schema does not name. *)
Definition unknownDetail (data : JS.object) (k : string) : Joi.Detail :=
  {| Joi.type := "object.unknown"; Joi.contextKey := k; Joi.contextValue := get k data |}.

(* ------------------------------------------------------------------ *)
(** ** brands/brands.service.ts *)

Module BrandsService.

Import Mongoose.

(** What a request answers: a body with its status code and message (and
    the inserted brands, for the seeding request), or the exception. *)
Inductive Response : Type :=
| Reply (statusCode : Z) (message : string) (brands : option (list JS.object))
| InternalServerErrorException.

Definition OK : Z := 200.

(** A number inside a template literal. *)
Definition numberToString (n : Z) : string := NilZero.string_of_int (Z.to_int n).

Section Service.

(** The environment when the module is loaded: the schemas read the year
    once, there. *)
Variable host : Host.

Definition brandsSchema : Joi.ObjectSchema :=
  [ ("_id", Joi.object);
    ("brandName", Joi.trim (Joi.required Joi.string));
    ("headquarters", Joi.trim (Joi.required Joi.string));
    ("yearFounded",
      Joi.default (Num 1600) (Joi.max (currentYear host) (Joi.min 1600 (Joi.required Joi.number))));
    ("numberOfLocations", Joi.default (Num 1) (Joi.min 1 (Joi.required Joi.number)));
    ("createdAt", Joi.date);
    ("updatedAt", Joi.date);
    ("__v", Joi.number) ].

(** The branches of the [forEach] body over [validatedBrand.error.details],
    each on the error's [context] and the brand being repaired. *)

(** "yearFounded": a value that is a number, also when stored as a string,
    is parsed into [yearFounded]; the field is then removed. *)
Definition conformYear (brand : JS.object) (key : string) (v : value) : JS.object :=
  let brand :=
    if negb (isNaN v) && truthy v then set "yearFounded" (parseInt v) brand else brand in
  delete key brand.

(** "numberOfLocations": the same, into [numberOfLocations]. *)
Definition conformLocations (brand : JS.object) (key : string) (v : value) : JS.object :=
  let brand :=
    if negb (isNaN v) && truthy v then set "numberOfLocations" (parseInt v) brand else brand in
  delete key brand.

(** "headquarters": a value that is not a number is moved to [headquarters]. *)
Definition conformHeadquarters (brand : JS.object) (key : string) (v : value) : JS.object :=
  let brand := if isNaN v && truthy v then set "headquarters" v brand else brand in
  delete key brand.

(** "brandname": the key of the validated value whose name has "brand" in it
    is looked up, its [name] becomes [brandName], and that key is removed. *)
Definition conformBrandName (validatedValue brand : JS.object) : JS.object :=
  let brandKey :=
    List.find (fun key => includes "brand" (toLowerCase key)) (keys validatedValue) in
  let brand :=
    set "brandName" (optionalName (get (propertyKey brandKey) validatedValue)) brand in
  delete (propertyKey brandKey) brand.

(** The [forEach] body: the first test that holds decides, and its branch
    returns; any other erroneous field is removed. *)
Definition conformError (validatedValue : JS.object) (brand : JS.object) (error : Joi.Detail)
  : JS.object :=
  let key := Joi.contextKey error in
  let v := Joi.contextValue error in
  if includes "year" (toLowerCase key) then conformYear brand key v
  else if includes "locations" (toLowerCase key) then conformLocations brand key v
  else if includes "hqaddress" (toLowerCase key) then conformHeadquarters brand key v
  else if includes "brandname" (toLowerCase key) then conformBrandName validatedValue brand
  else delete key brand.

(** The body of the [map] over the brands: a brand with validation errors is
    repaired and returned, a valid one yields [undefined]. *)
Definition conformBrand (brand : JS.object) : option JS.object :=
  let validatedBrand := validate host brand brandsSchema in
  match Joi.error validatedBrand with
  | Some details => Some (fold_left (conformError (Joi.value validatedBrand)) details brand)
  | None => None
  end.

(** [.filter(Boolean)] on an array of objects and [undefined]s. *)
Fixpoint filterBoolean (l : list (option JS.object)) : list JS.object :=
  match l with
  | [] => []
  | Some o :: rest => o :: filterBoolean rest
  | None :: rest => filterBoolean rest
  end.

Definition updateToConformSchema (brands : list JS.object) : list JS.object :=
  filterBoolean (map conformBrand brands).

(** The operation a repaired brand becomes: [const { _id, ...updates } = brand]. *)
Definition bulkOp (brand : JS.object) : BulkOp :=
  replaceOne (get "_id" brand) (delete "_id" brand).

Definition validateAndUpdate (brandModel : Model) : Response * list Call :=
  match find brandModel with
  | None => (InternalServerErrorException, [CallFind])
  | Some brands =>
      let updatedBrands := updateToConformSchema brands in
      if (Z.of_nat (length updatedBrands) =? 0) then
        (Reply OK "All brand data is already correct. No updates needed." None, [CallFind])
      else
        let updatedBrands :=
          map (fun brand => Joi.value (validate host brand brandsSchema)) updatedBrands in
        let bulkOps := map bulkOp updatedBrands in
        match bulkWrite brandModel bulkOps with
        | Some modifiedCount =>
            (Reply OK (numberToString modifiedCount ++ " brands updated successfully.") None,
             [CallFind; CallBulkWrite bulkOps])
        | None => (InternalServerErrorException, [CallFind; CallBulkWrite bulkOps])
        end
  end.

End Service.

(** *** Seed data *)

(** The faker generator: [seeded n] is its state after [faker.seed(n)]; the
    three generators used each draw from the state and advance it. *)
Class Faker : Type := {
  Generator : Type;
  seeded : Z -> Generator;
  companyName : state Generator string;
  numberInt : Z -> Z -> state Generator Z;
  locationCity : state Generator string
}.

Section Seed.

Context {faker : Faker}.

(** [faker.seed(n)]. *)
Definition seed (n : Z) : state Generator unit := put (seeded n).

(** The iterations of the [for] loop that remain, from index [i] on;
    [year] is what [new Date().getFullYear()] gives during the call. *)
Fixpoint generateLoop (year : Z) (remaining : nat) (i : Z) (brandData : list JS.object)
  : state Generator (list JS.object) :=
  match remaining with
  | O => ret brandData
  | S remaining =>
      seed (100 + i) ;;
      name <- companyName ;;
      founded <- numberInt 1600 year ;;
      city <- locationCity ;;
      locations <- numberInt 1 100 ;;
      let brand :=
        [ ("brandName", Str name);
          ("yearFounded", Num founded);
          ("headquarters", Str city);
          ("numberOfLocations", Num locations) ] in
      generateLoop year remaining (i + 1) (brandData ++ [brand])%list
  end.

Definition generateBrandsData (year : Z) (numberOfBrands : Z) : state Generator (list JS.object) :=
  generateLoop year (Z.to_nat numberOfBrands) 0 [].

(** The brand that the four draws of one iteration make, from the state
    the generator is in when they start. *)
Definition brandFrom (year : Z) (g : Generator) : JS.object :=
  let '(name, g1) := runState companyName g in
  let '(founded, g2) := runState (numberInt 1600 year) g1 in
  let '(city, g3) := runState locationCity g2 in
  let '(locations, _) := runState (numberInt 1 100) g3 in
  [ ("brandName", Str name);
    ("yearFounded", Num founded);
    ("headquarters", Str city);
    ("numberOfLocations", Num locations) ].


End Seed.

End BrandsService.


(* ------------------------------------------------------------------ *)
(** ** The field classifier, as the specification words it *)

Module Classifier.

Inductive Category : Type := Year | Locations | Headquarters | BrandName | Unknown.

(** The field name is lower-cased and tested for the anchors, in this order. *)
Definition classify (fieldName : string) : Category :=
  let name := toLowerCase fieldName in
  if includes "year" name then Year
  else if includes "locations" name then Locations
  else if includes "hqaddress" name then Headquarters
  else if includes "brandname" name then BrandName
  else Unknown.


(** A numeric string in the plain sense: decimal digits, at least one. *)
Fixpoint allDigits (s : string) : bool :=
  match s with
  | EmptyString => true
  | String c r => isDigit c && allDigits r
  end.

Definition decimalDigits (s : string) : bool := negb (isEmpty s) && allDigits s.

End Classifier.

(* ------------------------------------------------------------------ *)
(** ** Sample data *)

Module Samples.

Definition host2024 : Host :=
  {| currentYear := 2024; DateParse := fun _ => None; JSONParse := fun _ => None |}.

Definition oid : value := ObjectId "65f1c0ffee0ddba11ad0be57".

(** A brand that conforms to the schema. *)
Definition conformant : JS.object :=
  [ ("_id", oid); ("brandName", Str "Globex"); ("yearFounded", Num 1989);
    ("headquarters", Str "Springfield"); ("numberOfLocations", Num 12) ].

(** The record of the end-to-end example, with the identifier it is given. *)
Definition acme (id : value) : JS.object :=
  [ ("_id", id); ("brandName", Str "Acme"); ("yearFounded", Str "1950");
    ("headquarters", Str "NYC"); ("numberOfLocations", Num 5) ].

(** A year stored under another name, as a string. *)
Definition aliasYear : JS.object :=
  [ ("_id", oid); ("brandName", Str "Acme"); ("yearCreated", Str "1950");
    ("headquarters", Str "NYC"); ("numberOfLocations", Num 5) ].

Definition aliasYearRepaired : JS.object :=
  [ ("_id", oid); ("brandName", Str "Acme");
    ("headquarters", Str "NYC"); ("numberOfLocations", Num 5); ("yearFounded", Num 1950) ].

(** A blank string under a name with "year" in it, next to a valid year. *)
Definition blankYear : JS.object :=
  [ ("_id", oid); ("brandName", Str "Acme"); ("yearFounded", Num 1950);
    ("headquarters", Str "NYC"); ("numberOfLocations", Num 5); ("yearNote", Str " ") ].

(** No brand name at all. *)
Definition nameless : JS.object :=
  [ ("_id", oid); ("yearFounded", Num 1950);
    ("headquarters", Str "NYC"); ("numberOfLocations", Num 5) ].



Definition namelessRepaired : JS.object :=
  [ ("_id", oid); ("yearFounded", Num 1950);
    ("headquarters", Str "NYC"); ("numberOfLocations", Num 5); ("brandName", Undefined) ].

Definition brandNameRequired : Joi.Detail :=
  {| Joi.type := "any.required"; Joi.contextKey := "brandName"; Joi.contextValue := Undefined |}.

Definition blankYearRepaired : JS.object :=
  [ ("_id", oid); ("brandName", Str "Acme"); ("yearFounded", NaN);
    ("headquarters", Str "NYC"); ("numberOfLocations", Num 5) ].

Definition blankYearRepairedTwice : JS.object :=
  [ ("_id", oid); ("brandName", Str "Acme");
    ("headquarters", Str "NYC"); ("numberOfLocations", Num 5) ].




(** Three faults at once: no brand name, a year too early and no location,
    both numbers stored as strings. *)
Definition threeFaults : JS.object :=
  [ ("_id", oid); ("yearFounded", Str "1500");
    ("headquarters", Str " NYC "); ("numberOfLocations", Str "0") ].

(** What the validator makes of [acme id]: the year is a number. *)
Definition acmeValidated (id : value) : JS.object :=
  [ ("_id", id); ("brandName", Str "Acme"); ("yearFounded", Num 1950);
    ("headquarters", Str "NYC"); ("numberOfLocations", Num 5) ].

Definition idNotAnObject : Joi.Detail :=
  {| Joi.type := "object.base"; Joi.contextKey := "_id"; Joi.contextValue := Num 1 |}.

(** The bulk write of the end-to-end example when its identifier is the
    number 1: the filter has no identifier left. *)
Definition acmeOps : list Mongoose.BulkOp :=
  [Mongoose.replaceOne Undefined (delete "_id" (acmeValidated (Num 1)))].

End Samples.

(* ------------------------------------------------------------------ *)
(** ** brands/schemas/brands-schema.ts *)

Module BrandSchema.

(** The validators of the Mongoose schema, on a document whose four fields
    already have the declared types (a value that Mongoose would first cast
    is refused here): a required string is not empty once the [trim] setter
    has run, a required number is within its [min] and [max]. *)
Definition requiredString (v : value) : bool :=
  match v with
  | Str s => negb (isEmpty (JS.trim s))
  | _ => false
  end.

Definition requiredNumber (lo : Z) (hi : option Z) (v : value) : bool :=
  match v with
  | Num z => (lo <=? z) && match hi with Some hi => z <=? hi | None => true end
  | _ => false
  end.

Definition validators (h : Host) (doc : JS.object) : bool :=
  requiredString (get "brandName" doc)
  && requiredNumber 1600 (Some (currentYear h)) (get "yearFounded" doc)
  && requiredString (get "headquarters" doc)
  && requiredNumber 1 None (get "numberOfLocations" doc).

End BrandSchema.

(* ------------------------------------------------------------------ *)
(** ** brands/brands.service.ts: the CRUD operations *)

Module BrandsCrud.

(** The calls of the CRUD operations on the Mongoose model. A query
    resolves to a document or to [null] (the inner option), or rejects (no
    result at all). *)
Record Store : Type := {
  save : JS.object -> option JS.object;
  findEvery : option (list JS.object);
  findById : string -> option (option JS.object);
  findByIdAndUpdate : string -> JS.object -> option (option JS.object);
  findByIdAndDelete : string -> option (option JS.object);
  deleteMany : option Z
}.

Inductive StoreCall : Type :=
| Save (doc : JS.object)
| FindEvery
| FindById (id : string)
| FindByIdAndUpdate (id : string) (update : JS.object)
| FindByIdAndDelete (id : string)
| DeleteMany.

(** How an operation ends: it returns, it throws one of the two HTTP
    exceptions it makes itself, or the model's rejection is thrown on. *)
Inductive Outcome (A : Type) : Type :=
| Returned (a : A)
| BadRequestException (message : string)
| NotFoundException (message : string)
| Rejected.

Arguments Returned {A} a.
Arguments BadRequestException {A} message.
Arguments NotFoundException {A} message.
Arguments Rejected {A}.

Section Crud.

Variable host : Host.

(** Joi's rendering of [error.message] from the details. *)
Variable errorMessage : list Joi.Detail -> string.

Definition createBrandsSchema : Joi.ObjectSchema :=
  [ ("brandName", Joi.trim (Joi.required Joi.string));
    ("headquarters", Joi.trim (Joi.required Joi.string));
    ("yearFounded",
      Joi.default (Num 1600) (Joi.max (currentYear host) (Joi.min 1600 (Joi.required Joi.number))));
    ("numberOfLocations", Joi.default (Num 1) (Joi.min 1 (Joi.required Joi.number))) ].

Definition updateBrandsSchema : Joi.ObjectSchema :=
  [ ("brandName", Joi.trim Joi.string);
    ("headquarters", Joi.trim Joi.string);
    ("yearFounded", Joi.default (Num 1600) (Joi.max (currentYear host) (Joi.min 1600 Joi.number)));
    ("numberOfLocations", Joi.default (Num 1) (Joi.min 1 Joi.number)) ].

Definition create (brandModel : Store) (createBrandDto : JS.object)
  : Outcome JS.object * list StoreCall :=
  let validatedBrand := validate host createBrandDto createBrandsSchema in
  match Joi.error validatedBrand with
  | Some ds => (BadRequestException (errorMessage ds), [])
  | None =>
      let brand := Joi.value validatedBrand in
      (match save brandModel brand with
       | Some doc => Returned doc
       | None => Rejected
       end, [Save brand])
  end.

Definition findAll (brandModel : Store) : Outcome (list JS.object) * list StoreCall :=
  (match findEvery brandModel with
   | Some brand => Returned brand
   | None => Rejected
   end, [FindEvery]).

Definition findOne (brandModel : Store) (id : string) : Outcome JS.object * list StoreCall :=
  (match findById brandModel id with
   | Some (Some brand) => Returned brand
   | Some None => NotFoundException "Brand not found!"
   | None => Rejected
   end, [FindById id]).

Definition update (brandModel : Store) (id : string) (updateBrandDto : JS.object)
  : Outcome BrandsService.Response * list StoreCall :=
  let validatedBrand := validate host updateBrandDto updateBrandsSchema in
  match Joi.error validatedBrand with
  | Some ds => (BadRequestException (errorMessage ds), [])
  | None =>
      (match findByIdAndUpdate brandModel id updateBrandDto with
       | Some (Some _) =>
           Returned (BrandsService.Reply BrandsService.OK "Brand updateed successfully" None)
       | Some None => NotFoundException "Brand not found!"
       | None => Rejected
       end, [FindByIdAndUpdate id updateBrandDto])
  end.

Definition remove (brandModel : Store) (id : string)
  : Outcome BrandsService.Response * list StoreCall :=
  (match findByIdAndDelete brandModel id with
   | Some (Some _) =>
       Returned (BrandsService.Reply BrandsService.OK "Brand deleted successfully" None)
   | Some None => NotFoundException "Brand not found!"
   | None => Rejected
   end, [FindByIdAndDelete id]).

Definition removeAll (brandModel : Store) : Outcome Z * list StoreCall :=
  (match deleteMany brandModel with
   | Some result => Returned result
   | None => Rejected
   end, [DeleteMany]).

End Crud.

End BrandsCrud.

(* ------------------------------------------------------------------ *)
(** ** More of the repair and of the seeding, for the statements below *)

Module Coverage.

(** The filter of a bulk operation. *)
Definition filterId (op : Mongoose.BulkOp) : value :=
  match op with Mongoose.replaceOne id _ => id end.

(** The bulk operations among the calls of a request. *)
Fixpoint writtenOps (calls : list Mongoose.Call) : list Mongoose.BulkOp :=
  match calls with
  | [] => []
  | Mongoose.CallBulkWrite ops :: rest => (ops ++ writtenOps rest)%list
  | _ :: rest => writtenOps rest
  end.

(** The keys of a record that a schema does not name. *)
Definition unknownKeysOf (Schema : Joi.ObjectSchema) (data : JS.object) : list string :=
  filter (fun k => negb (Joi.isKnown Schema k)) (keys data).

(** A record after [delete] of each of the keys, in order. *)
Definition deleteAll (ks : list string) (o : JS.object) : JS.object :=
  fold_left (fun o k => delete k o) ks o.

(** The four fields of a brand. *)
Definition canonical : list string :=
  ["brandName"; "yearFounded"; "headquarters"; "numberOfLocations"].

(** The state the generator is left in by the four draws of one iteration. *)
Definition stateAfterBrand {faker : BrandsService.Faker} (year : Z)
           (g : BrandsService.Generator) : BrandsService.Generator :=
  let '(_, g1) := runState BrandsService.companyName g in
  let '(_, g2) := runState (BrandsService.numberInt 1600 year) g1 in
  let '(_, g3) := runState BrandsService.locationCity g2 in
  snd (runState (BrandsService.numberInt 1 100) g3).

(** A generator to run the seeding on: its state is a counter, every name
    is "Brand" and every city "City", and a number is the lower bound plus
    the counter, wrapped into the bounds. *)
Definition counterFaker : BrandsService.Faker :=
  {| BrandsService.Generator := Z;
     BrandsService.seeded := fun n => n;
     BrandsService.companyName := mkState (fun g => ("Brand", g + 1));
     BrandsService.numberInt :=
       fun lo hi => mkState (fun g => (lo + g mod (hi - lo + 1), g + 1));
     BrandsService.locationCity := mkState (fun g => ("City", g + 1)) |}.

(** A store that keeps nothing and finds nothing. *)
Definition emptyStore : BrandsCrud.Store :=
  {| BrandsCrud.save := fun doc => Some doc;
     BrandsCrud.findEvery := Some [];
     BrandsCrud.findById := fun _ => Some None;
     BrandsCrud.findByIdAndUpdate := fun _ _ => Some None;
     BrandsCrud.findByIdAndDelete := fun _ => Some None;
     BrandsCrud.deleteMany := Some 0 |}.

(** Joi's messages are not needed to run the samples. *)
Definition noMessage (ds : list Joi.Detail) : string := "".

(** A conformant brand with one field more. *)
Definition withNotes : JS.object :=
  (Samples.conformant ++ [("notes", Str "x")])%list.



(** The headquarters under another name. *)
Definition aliasHeadquarters : JS.object :=
  [ ("_id", Samples.oid); ("brandName", Str "Acme"); ("yearFounded", Num 1950);
    ("hqAddress", Str "NYC"); ("numberOfLocations", Num 5) ].

Definition hqAddressUnknown : Joi.Detail :=
  {| Joi.type := "object.unknown"; Joi.contextKey := "hqAddress";
     Joi.contextValue := Str "NYC" |}.

(** A create request. *)
Definition createDto : JS.object :=
  [ ("brandName", Str " Acme "); ("yearFounded", Str "1950");
    ("headquarters", Str "NYC"); ("numberOfLocations", Num 5) ].

(** What [create] saves for it: the name trimmed, the year a number. *)
Definition createSaved : JS.object :=
  [ ("brandName", Str "Acme"); ("yearFounded", Num 1950);
    ("headquarters", Str "NYC"); ("numberOfLocations", Num 5) ].

End Coverage.

Import BrandsService Mongoose Classifier Samples.

(* ------------------------------------------------------------------ *)
(** ** The host functions on a few inputs *)

Example parseInt_samples :
  parseInt (Str "1950") = Num 1950 /\ parseInt (Str " -0x1F") = Num (-31) /\
  parseInt (Str "12.5") = Num 12 /\ parseInt (Str "1e3") = Num 1 /\
  parseInt (Str " ") = NaN /\ parseInt (Str "Infinity") = NaN /\
  parseInt (Num 1500) = Num 1500 /\ parseInt (Boolean true) = NaN.
Proof. vm_compute. repeat split. Qed.

Example isNaN_samples :
  isNaN (Str "1950") = false /\ isNaN (Str " ") = false /\ isNaN (Str "") = false /\
  isNaN (Str "1e3") = false /\ isNaN (Str "Infinity") = false /\
  isNaN (Str "NYC") = true /\ isNaN (Str "12a") = true /\ isNaN Undefined = true /\
  isNaN Null = false /\ isNaN (Obj []) = true.
Proof. vm_compute. repeat split. Qed.

Example includes_samples :
  includes "year" (toLowerCase "YearFounded") = true /\
  includes "locations" (toLowerCase "numberOfLocations") = true /\
  includes "hqaddress" (toLowerCase "hqAddress") = true /\
  includes "brandname" (toLowerCase "brand") = false.
Proof. vm_compute. repeat split. Qed.

Example validate_threeFaults :
  validate host2024 threeFaults (brandsSchema host2024) =
  {| Joi.value :=
       [ ("_id", oid); ("yearFounded", Num 1500); ("headquarters", Str "NYC");
         ("numberOfLocations", Num 0) ];
     Joi.error :=
       Some [ {| Joi.type := "any.required"; Joi.contextKey := "brandName";
                 Joi.contextValue := Undefined |};
              {| Joi.type := "number.min"; Joi.contextKey := "yearFounded";
                 Joi.contextValue := Num 1500 |};
              {| Joi.type := "number.min"; Joi.contextKey := "numberOfLocations";
                 Joi.contextValue := Num 0 |} ] |}.
Proof. vm_compute. reflexivity. Qed.

(* ------------------------------------------------------------------ *)
(** ** Objects: reading after writing *)

Section ObjectFacts.

Implicit Types (k : string) (v : value) (o : JS.object).

Lemma get_set_same k v o : get k (set k v o) = v.
Proof.
  induction o as [|[k' v'] o IH]; simpl.
  - now rewrite String.eqb_refl.
  - destruct (String.eqb k k') eqn:E; simpl; rewrite E; auto.
Qed.

Lemma get_set_other k k' v o : k <> k' -> get k (set k' v o) = get k o.
Proof.
  intros N. induction o as [|[k2 v2] o IH]; simpl.
  - destruct (String.eqb_spec k k'); congruence.
  - destruct (String.eqb_spec k' k2); simpl; destruct (String.eqb_spec k k2);
      congruence.
Qed.

Lemma hasOwn_delete k o : hasOwn k (delete k o) = false.
Proof.
  induction o as [|[k' v'] o IH]; simpl; auto.
  destruct (String.eqb k k') eqn:E; simpl; auto. now rewrite E.
Qed.

Lemma get_delete_other k k' o : k <> k' -> get k (delete k' o) = get k o.
Proof.
  intros N. induction o as [|[k2 v2] o IH]; simpl; auto.
  destruct (String.eqb_spec k' k2); simpl; destruct (String.eqb_spec k k2);
    congruence.
Qed.

End ObjectFacts.

(* ------------------------------------------------------------------ *)
(** ** The repair pass over a batch *)

Section BatchFacts.

Variable host : Host.

Lemma filterBoolean_app l1 l2 :
  filterBoolean (l1 ++ l2) = (filterBoolean l1 ++ filterBoolean l2)%list.
Proof.
  induction l1 as [|[o|] l1 IH]; simpl; auto. now rewrite IH.
Qed.

Lemma repair_app brands1 brands2 :
  updateToConformSchema host (brands1 ++ brands2) = (updateToConformSchema host brands1 ++ updateToConformSchema host brands2)%list.
Proof.
  unfold updateToConformSchema. now rewrite map_app, filterBoolean_app.
Qed.

Lemma repair_cons brand brands :
  updateToConformSchema host (brand :: brands) =
  match conformBrand host brand with
  | Some repaired => repaired :: updateToConformSchema host brands
  | None => updateToConformSchema host brands
  end.
Proof.
  unfold updateToConformSchema. simpl. now destruct (conformBrand host brand).
Qed.

Lemma conformBrand_valid brand :
  Joi.error (validate host brand (brandsSchema host)) = None ->
  conformBrand host brand = None.
Proof.
  unfold conformBrand. now intros ->.
Qed.

Lemma repair_length brands :
  length (updateToConformSchema host brands) =
  length (filter (isInvalid host (brandsSchema host)) brands).
Proof.
  induction brands as [|brand brands IH]; [reflexivity|].
  rewrite repair_cons. unfold conformBrand, isInvalid in *. cbn [filter].
  destruct (Joi.error (validate host brand (brandsSchema host))); cbn [length]; now rewrite IH.
Qed.

Lemma repair_all_valid brands :
  Forall (fun brand => Joi.error (validate host brand (brandsSchema host)) = None) brands ->
  updateToConformSchema host brands = [].
Proof.
  induction 1 as [|brand brands Hv _ IH]; [reflexivity|].
  now rewrite repair_cons, (conformBrand_valid _ Hv).
Qed.

End BatchFacts.

(* ------------------------------------------------------------------ *)
(** ** Valid records and the repair pass (C1) *)

(** C1, as the code has it: a record that validates against the canonical
    Brands schema is left out of the output of [updateToConformSchema]; the
    batch is repaired as if the record were not in it. *)
Theorem valid_brand_is_filtered_out :
  forall (host : Host) (brand : JS.object) (before after : list JS.object),
    Joi.error (validate host brand (brandsSchema host)) = None ->
    updateToConformSchema host (before ++ brand :: after) =
    (updateToConformSchema host before ++ updateToConformSchema host after)%list.
Proof.
  intros host brand before after Hv.
  rewrite repair_app, repair_cons.
  now rewrite (conformBrand_valid host brand Hv).
Qed.

Lemma valid_brand_is_filtered_out_witness :
  Joi.error (validate host2024 conformant (brandsSchema host2024)) = None /\
  updateToConformSchema host2024 ([aliasYear] ++ conformant :: []) = [aliasYearRepaired].
Proof.
  split; [reflexivity|].
  rewrite (valid_brand_is_filtered_out host2024 conformant [aliasYear] [] eq_refl).
  reflexivity.
Defined.

(** C1 fails as stated: the conformant sample validates, and the repair of
    the batch that holds only it is empty, so the record is not returned. *)
Lemma valid_brand_not_returned :
  Joi.error (validate host2024 conformant (brandsSchema host2024)) = None /\
  updateToConformSchema host2024 [conformant] = [] /\
  existsb (fun b => valueEqb (Obj b) (Obj conformant))
          (updateToConformSchema host2024 [conformant]) = false.
Proof. vm_compute. repeat split. Qed.

(* ------------------------------------------------------------------ *)
(** ** The request: what is answered and what is written *)

(** C9: when the repair pass over the fetched batch yields nothing, the
    request answers "All brand data is already correct. No updates needed."
    and the only call made on the model is the fetch. *)
Theorem nothing_repaired_nothing_written :
  forall (host : Host) (brandModel : Model) (brands : list JS.object),
    find brandModel = Some brands ->
    updateToConformSchema host brands = [] ->
    validateAndUpdate host brandModel =
      (Reply OK "All brand data is already correct. No updates needed." None, [CallFind])
    /\ existsb isWrite (snd (validateAndUpdate host brandModel)) = false.
Proof.
  intros host brandModel brands Hfind Hnone.
  assert (E : validateAndUpdate host brandModel =
              (Reply OK "All brand data is already correct. No updates needed." None,
               [CallFind])).
  { unfold validateAndUpdate. now rewrite Hfind, Hnone. }
  now rewrite E.
Qed.

Lemma nothing_repaired_nothing_written_witness :
  find (memoryModel [conformant]) = Some [conformant] /\
  updateToConformSchema host2024 [conformant] = [] /\
  validateAndUpdate host2024 (memoryModel [conformant]) =
    (Reply 200 "All brand data is already correct. No updates needed." None, [CallFind]).
Proof.
  split; [reflexivity|]. split; [reflexivity|].
  exact (proj1 (nothing_repaired_nothing_written host2024 (memoryModel [conformant])
                  [conformant] eq_refl eq_refl)).
Defined.

(** C3, as the code has it: when the repair pass yields records, each of
    them goes through [validate] a second time and the value of that pass,
    split into its [_id] and the rest, is handed to the bulk write; the error
    of the second pass is not read, and there is one operation for every
    fetched record that failed the first validation. *)
Theorem bulk_write_gets_second_pass_values :
  forall (host : Host) (brandModel : Model) (brands : list JS.object)
         (first : JS.object) (others : list JS.object),
    find brandModel = Some brands ->
    updateToConformSchema host brands = first :: others ->
    let ops :=
      map (fun brand => bulkOp (Joi.value (validate host brand (brandsSchema host))))
          (first :: others) in
    snd (validateAndUpdate host brandModel) = [CallFind; CallBulkWrite ops]
    /\ length ops = length (filter (isInvalid host (brandsSchema host)) brands).
Proof.
  intros host brandModel brands first others Hfind Hsome ops.
  split.
  - unfold validateAndUpdate. rewrite Hfind, Hsome. cbn [length Z.of_nat Z.eqb].
    rewrite map_map. fold ops. now destruct (bulkWrite brandModel ops).
  - subst ops. now rewrite length_map, <- Hsome, repair_length.
Qed.

Lemma bulk_write_gets_second_pass_values_witness :
  find (memoryModel [nameless]) = Some [nameless] /\
  updateToConformSchema host2024 [nameless] = [namelessRepaired] /\
  snd (validateAndUpdate host2024 (memoryModel [nameless])) =
    [CallFind; CallBulkWrite [replaceOne oid (delete "_id" namelessRepaired)]].
Proof.
  split; [reflexivity|]. split; [reflexivity|].
  exact (proj1 (bulk_write_gets_second_pass_values host2024 (memoryModel [nameless])
                  [nameless] namelessRepaired [] eq_refl eq_refl)).
Defined.

(** C3 fails as stated: the brand without a name is repaired into a record
    that fails the second validation pass (its brand name is required), the
    value of that pass fails validation too, and it is what the bulk write
    is given. *)
Lemma invalid_record_is_written :
  updateToConformSchema host2024 [nameless] = [namelessRepaired] /\
  validate host2024 namelessRepaired (brandsSchema host2024) =
    {| Joi.value := namelessRepaired; Joi.error := Some [brandNameRequired] |} /\
  snd (validateAndUpdate host2024 (memoryModel [nameless])) =
    [CallFind; CallBulkWrite [replaceOne oid (delete "_id" namelessRepaired)]].
Proof. vm_compute. repeat split. Qed.

(* ------------------------------------------------------------------ *)
(** ** Repairing twice (C7) *)

(** C7, as the code has it: when every record the first repair pass returns
    validates, a second pass over them returns nothing: a repaired record
    that now validates is left out, not returned again. *)
Theorem second_repair_of_valid_output_is_empty :
  forall (host : Host) (brands : list JS.object),
    Forall (fun brand => Joi.error (validate host brand (brandsSchema host)) = None)
           (updateToConformSchema host brands) ->
    updateToConformSchema host (updateToConformSchema host brands) = [].
Proof.
  intros host brands Hvalid. now apply repair_all_valid.
Qed.

Lemma second_repair_of_valid_output_is_empty_witness :
  Forall (fun brand => Joi.error (validate host2024 brand (brandsSchema host2024)) = None)
         (updateToConformSchema host2024 [aliasYear]) /\
  updateToConformSchema host2024 (updateToConformSchema host2024 [aliasYear]) = [].
Proof.
  assert (H : Forall (fun brand =>
                Joi.error (validate host2024 brand (brandsSchema host2024)) = None)
              (updateToConformSchema host2024 [aliasYear])).
  { replace (updateToConformSchema host2024 [aliasYear]) with [aliasYearRepaired]
      by (vm_compute; reflexivity).
    constructor; [vm_compute; reflexivity | constructor]. }
  split; [exact H|].
  exact (second_repair_of_valid_output_is_empty host2024 [aliasYear] H).
Defined.

(** C7 fails as stated, in both ways. The record with its year under
    another name is repaired into a valid record, which a second pass does
    not return; the record with a blank string under "yearNote" is repaired
    into one whose year is NaN, which a second pass changes again. *)
Lemma repair_is_not_idempotent :
  updateToConformSchema host2024 [aliasYear] = [aliasYearRepaired] /\
  updateToConformSchema host2024 [aliasYearRepaired] = [] /\
  updateToConformSchema host2024 [blankYear] = [blankYearRepaired] /\
  updateToConformSchema host2024 [blankYearRepaired] = [blankYearRepairedTwice].
Proof. vm_compute. repeat split. Qed.

(* ------------------------------------------------------------------ *)
(** ** Strings of decimal digits *)

Ltac split_ascii c :=
  destruct c as [[] [] [] [] [] [] [] []].

Lemma digit_char c :
  isDigit c = true ->
  isWhiteSpace c = false /\ isRadixDigit 10 c = true /\
  forall r, stripSign (String c r) = (false, String c r).
Proof.
  split_ascii c; vm_compute; intros H; try discriminate H; repeat split.
Qed.

Lemma radixPrefix_digits s : allDigits s = true -> radixPrefix s = None.
Proof.
  destruct s as [|c [|c2 r]]; [reflexivity| |].
  - intros _. split_ascii c; reflexivity.
  - cbn [allDigits]. intros H.
    apply andb_prop in H as [_ H]. apply andb_prop in H as [H _].
    split_ascii c; try reflexivity; split_ascii c2; try reflexivity; discriminate H.
Qed.

Lemma span_digits s : allDigits s = true -> span isDigit s = (s, EmptyString).
Proof.
  induction s as [|c r IH]; simpl; auto.
  intros H. apply andb_prop in H as [Hc Hr]. now rewrite Hc, (IH Hr).
Qed.

Lemma span_radix_digits s :
  allDigits s = true -> span (isRadixDigit 10) s = (s, EmptyString).
Proof.
  induction s as [|c r IH]; simpl; auto.
  intros H. apply andb_prop in H as [Hc Hr].
  destruct (digit_char c Hc) as (_ & -> & _). now rewrite (IH Hr).
Qed.

Lemma trimEnd_digits s : allDigits s = true -> trimEnd s = s.
Proof.
  induction s as [|c r IH]; [reflexivity|].
  cbn [allDigits]. intros H. apply andb_prop in H as [Hc Hr].
  cbn [trimEnd isBlank]. destruct (digit_char c Hc) as (-> & _).
  cbn [andb]. now rewrite (IH Hr).
Qed.

Lemma parseIntString_digits s :
  decimalDigits s = true -> parseIntString s = Num (digitsValue 10 0 s).
Proof.
  unfold decimalDigits. destruct s as [|c r]; [discriminate|].
  cbn [isEmpty negb andb]. intros H.
  unfold parseIntString.
  assert (Hc : isDigit c = true) by (cbn [allDigits] in H; now apply andb_prop in H).
  destruct (digit_char c Hc) as (Hw & _ & Hs).
  cbn [trimStart]. rewrite Hw, Hs, (radixPrefix_digits _ H), (span_radix_digits _ H).
  reflexivity.
Qed.

Lemma isNumericString_digits s :
  decimalDigits s = true -> isNumericString s = true.
Proof.
  unfold decimalDigits. destruct s as [|c r]; [discriminate|].
  cbn [isEmpty negb andb]. intros H.
  assert (Hc : isDigit c = true) by (cbn [allDigits] in H; now apply andb_prop in H).
  destruct (digit_char c Hc) as (Hw & _ & Hs).
  unfold isNumericString, JS.trim. cbn [trimStart]. rewrite Hw, (trimEnd_digits _ H).
  cbn [isEmpty]. rewrite (radixPrefix_digits _ H), Hs.
  unfold unsignedDecimal, decimalParts. rewrite (span_digits _ H).
  cbn. apply orb_true_r.
Qed.

(* ------------------------------------------------------------------ *)
(** ** One error at a time: classification and correction *)







(* ------------------------------------------------------------------ *)
(** ** Validation, one key at a time *)

Section Steps.
Variable h : Host.
Variable p : Joi.Preferences.

Lemma validateKeys_step_ok k s rest value v :
  Joi.validateChild h p s (get k value) = (v, []) ->
  Joi.isUndefined v = false ->
  Joi.validateKeys h p ((k, s) :: rest) value = Joi.validateKeys h p rest (set k v value).
Proof.
  intros Hc Hv. cbn [Joi.validateKeys]. now rewrite Hc, Hv.
Qed.

Lemma validateKeys_step_absent k s rest value :
  get k value = Undefined ->
  Joi.validateChild h p s Undefined = (Undefined, []) ->
  Joi.validateKeys h p ((k, s) :: rest) value = Joi.validateKeys h p rest value.
Proof.
  intros Hg Hc. cbn [Joi.validateKeys]. now rewrite Hg, Hc.
Qed.

Lemma validateKeys_step_error k s rest value v e es :
  Joi.abortEarly p = false ->
  Joi.validateChild h p s (get k value) = (v, e :: es) ->
  Joi.validateKeys h p ((k, s) :: rest) value =
  let '(value2, ds, aborted) :=
    Joi.validateKeys h p rest (if Joi.isUndefined v then value else set k v value) in
  (value2, (map (Joi.detail k) (e :: es) ++ ds)%list, aborted).
Proof.
  intros Ha Hc. cbn [Joi.validateKeys]. now rewrite Hc, Ha.
Qed.

End Steps.

Lemma validateChild_number h s item z :
  Joi.base s = Joi.TNumber ->
  Joi.coerce h s item = Num z ->
  Z.abs z <= Joi.MAX_SAFE_INTEGER ->
  (forall lo, Joi.ruleMin s = Some lo -> lo <= z) ->
  (forall hi, Joi.ruleMax s = Some hi -> z <= hi) ->
  Joi.validateChild h collectAll s item = (Num z, []).
Proof.
  intros Hb Hc Hsafe Hlo Hhi. unfold Joi.validateChild. cbn [Joi.convert collectAll].
  rewrite Hc. unfold Joi.validateBase. rewrite Hb.
  apply Z.leb_le in Hsafe. rewrite Hsafe.
  cbn [Joi.abortEarly Joi.finalize]. unfold Joi.validateRules.
  destruct (Joi.ruleMin s) as [lo|], (Joi.ruleMax s) as [hi|];
    repeat match goal with
    | |- context [?a <=? ?b] =>
        replace (a <=? b) with true by (symmetry; apply Z.leb_le; auto)
    end; reflexivity.
Qed.


Ltac child_ok v :=
  rewrite (validateKeys_step_ok _ _ _ _ _ _ v) by (vm_compute; reflexivity).

Ltac child_absent :=
  rewrite validateKeys_step_absent by (vm_compute; reflexivity).

Ltac child_in_range z :=
  rewrite (validateKeys_step_ok _ _ _ _ _ _ (Num z));
  [ | apply validateChild_number;
      [ reflexivity | vm_compute; reflexivity | vm_compute; discriminate
      | cbn; intros ? [= <-]; lia | cbn; intros ? [= <-]; lia ]
    | reflexivity ].

Lemma validate_acme_objectid host hex :
  1950 <= currentYear host ->
  validate host (acme (ObjectId hex)) (brandsSchema host) =
  {| Joi.value := acmeValidated (ObjectId hex); Joi.error := None |}.
Proof.
  intros Hy.
  unfold validate, Joi.validate, brandsSchema. fold collectAll.
  child_ok (ObjectId hex). child_ok (Str "Acme"). child_ok (Str "NYC").
  child_in_range 1950. child_ok (Num 5).
  child_absent. child_absent. child_absent.
  vm_compute. reflexivity.
Qed.

Lemma validate_acme_number host :
  1950 <= currentYear host ->
  validate host (acme (Num 1)) (brandsSchema host) =
  {| Joi.value := acmeValidated (Num 1); Joi.error := Some [idNotAnObject] |}.
Proof.
  intros Hy.
  unfold validate, Joi.validate, brandsSchema. fold collectAll.
  rewrite (validateKeys_step_error _ _ _ _ _ _ (Num 1) ("object.base", Num 1) [])
    by (vm_compute; reflexivity).
  cbn [Joi.isUndefined].
  child_ok (Str "Acme"). child_ok (Str "NYC").
  child_in_range 1950. child_ok (Num 5).
  child_absent. child_absent. child_absent.
  vm_compute. reflexivity.
Qed.

Lemma validate_acme_without_id host :
  1950 <= currentYear host ->
  validate host (delete "_id" (acme (Num 1))) (brandsSchema host) =
  {| Joi.value := delete "_id" (acmeValidated (Num 1)); Joi.error := None |}.
Proof.
  intros Hy.
  unfold validate, Joi.validate, brandsSchema. fold collectAll.
  child_absent.
  child_ok (Str "Acme"). child_ok (Str "NYC").
  child_in_range 1950. child_ok (Num 5).
  child_absent. child_absent. child_absent.
  vm_compute. reflexivity.
Qed.

(* ------------------------------------------------------------------ *)
(** ** The end-to-end example (C2) *)

(** C2, as the code has it, for any year from 1950 on and any store. With
    an ObjectId as its identifier the record validates, the numeric string
    being coerced, so nothing is repaired, the answer is "No updates needed"
    and nothing is written. With the number 1 as its identifier, which the
    schema's object type refuses, the repair deletes [_id]; the second
    validation pass then gives a value whose [yearFounded] is the number
    1950, and one replaceOne without identifier is handed to the bulk write;
    the count in the answer is the one the store reports. *)
Theorem acme_end_to_end :
  forall (host : Host) (hex : string)
         (write : list BulkOp -> option Z) (insert : list JS.object -> option (list JS.object)),
    1950 <= currentYear host ->
    let model id := {| find := Some [acme id]; bulkWrite := write; insertMany := insert |} in
    validateAndUpdate host (model (ObjectId hex)) =
      (Reply OK "All brand data is already correct. No updates needed." None, [CallFind])
    /\ validateAndUpdate host (model (Num 1)) =
       (match write acmeOps with
        | Some modifiedCount =>
            Reply OK (numberToString modifiedCount ++ " brands updated successfully.") None
        | None => InternalServerErrorException
        end, [CallFind; CallBulkWrite acmeOps])
    /\ get "yearFounded" (delete "_id" (acmeValidated (Num 1))) = Num 1950.
Proof.
  intros host hex write insert Hy model. split; [|split; [|reflexivity]].
  - unfold validateAndUpdate, model. cbn [find].
    unfold updateToConformSchema, conformBrand. cbn [map].
    rewrite (validate_acme_objectid host hex Hy). reflexivity.
  - unfold validateAndUpdate, model. cbn [find bulkWrite].
    unfold updateToConformSchema, conformBrand. cbn [map].
    rewrite (validate_acme_number host Hy).
    cbn [Joi.error Joi.value fold_left filterBoolean].
    replace (conformError (acmeValidated (Num 1)) (acme (Num 1)) idNotAnObject)
      with (delete "_id" (acme (Num 1))) by (vm_compute; reflexivity).
    cbn [length Z.of_nat Z.eqb map Pos.of_succ_nat].
    rewrite (validate_acme_without_id host Hy).
    cbn [Joi.value].
    change [bulkOp (delete "_id" (acmeValidated (Num 1)))] with acmeOps.
    destruct (write acmeOps); reflexivity.
Qed.

Lemma acme_end_to_end_witness :
  1950 <= currentYear host2024 /\
  validateAndUpdate host2024 (memoryModel [acme oid]) =
    (Reply 200 "All brand data is already correct. No updates needed." None, [CallFind]).
Proof.
  assert (H : 1950 <= currentYear host2024) by (cbn; lia).
  split; [exact H|].
  exact (proj1 (acme_end_to_end host2024 "65f1c0ffee0ddba11ad0be57"
                  (bulkWrite (memoryModel [acme oid]))
                  (insertMany (memoryModel [acme oid])) H)).
Defined.

(** C2 fails as stated. With an ObjectId the answer is "No updates needed"
    and there is no output batch; with the number 1 the bulk write has the
    year as the number 1950 but no identifier to match, and the collection
    in memory reports no modified document. *)
Lemma acme_is_not_reported_changed :
  validateAndUpdate host2024 (memoryModel [acme oid]) =
    (Reply 200 "All brand data is already correct. No updates needed." None, [CallFind]) /\
  validateAndUpdate host2024 (memoryModel [acme (Num 1)]) =
    (Reply 200 "0 brands updated successfully." None, [CallFind; CallBulkWrite acmeOps]).
Proof. vm_compute. repeat split. Qed.

(* ------------------------------------------------------------------ *)
(** ** The validator collects every error (C6) *)

Section CollectAll.

Variable h : Host.
Variable p : Joi.Preferences.
Hypothesis collect : Joi.abortEarly p = false.

Lemma isKnown_cons_false k k' s ks :
  Joi.isKnown ((k', s) :: ks) k = false -> k <> k' /\ Joi.isKnown ks k = false.
Proof.
  unfold Joi.isKnown. cbn [existsb fst]. intros H.
  apply orb_false_elim in H as [H1 H2]. split; [|exact H2].
  intros ->. now rewrite String.eqb_refl in H1.
Qed.

Lemma notIn_isKnown k ks : ~ In k (map fst ks) -> Joi.isKnown ks k = false.
Proof.
  intros H. unfold Joi.isKnown. destruct (existsb _ ks) eqn:E; [|reflexivity].
  apply existsb_exists in E as ([k' s] & Hin & Heq). cbn [fst] in Heq.
  apply String.eqb_eq in Heq as ->. exfalso. apply H. now apply (in_map fst) in Hin.
Qed.

Lemma fieldErrors_ext data data' ks :
  (forall k s, In (k, s) ks -> get k data' = get k data) ->
  flat_map (fieldErrors h p data') ks = flat_map (fieldErrors h p data) ks.
Proof.
  intros H. induction ks as [|[k s] ks IH]; [reflexivity|].
  cbn [flat_map]. rewrite IH by (intros k' s' Hin; apply (H k' s'); now right).
  unfold fieldErrors at 1 3. cbn [fst snd]. now rewrite (H k s) by now left.
Qed.

Lemma validateKeys_collects ks :
  NoDup (map fst ks) ->
  forall value,
    snd (Joi.validateKeys h p ks value) = false
    /\ snd (fst (Joi.validateKeys h p ks value)) = flat_map (fieldErrors h p value) ks
    /\ (forall k, Joi.isKnown ks k = false ->
          get k (fst (fst (Joi.validateKeys h p ks value))) = get k value)
    /\ (forall k s, In (k, s) ks ->
          Joi.isUndefined (fst (Joi.validateChild h p s (get k value))) = false ->
          get k (fst (fst (Joi.validateKeys h p ks value))) =
          fst (Joi.validateChild h p s (get k value))).
Proof.
  induction ks as [|[k s] ks IH]; intros Hnd value.
  - repeat split. intros k s [].
  - cbn [map fst] in Hnd. inversion Hnd as [|? ? Hnotin Hnd']; subst.
    assert (Hother : forall v k' s', In (k', s') ks ->
              get k' (set k v value) = get k' value /\
              get k' (delete k value) = get k' value).
    { intros v k' s' Hin.
      assert (k' <> k).
      { intros ->. apply Hnotin. now apply (in_map fst) in Hin. }
      split; [now apply get_set_other | now apply get_delete_other]. }
    cbn [Joi.validateKeys flat_map]. unfold fieldErrors at 1. cbn [fst snd].
    destruct (Joi.validateChild h p s (get k value)) as [v es] eqn:Hchild.
    cbn [snd].
    destruct es as [|e es].
    + set (value1 := if Joi.isUndefined v then _ else _).
      destruct (IH Hnd' value1) as (Ha & Hd & Hg & Hv).
      assert (Hsame : forall k' s', In (k', s') ks -> get k' value1 = get k' value).
      { intros k' s' Hin. subst value1. destruct (Hother v k' s' Hin).
        destruct (Joi.isUndefined v), (Joi.isUndefined (get k value)); auto. }
      split; [exact Ha|]. split; [|split].
      * rewrite Hd. cbn [map app]. now apply fieldErrors_ext.
      * intros k' Hk'. apply isKnown_cons_false in Hk' as [Hne Hk'].
        rewrite (Hg k' Hk'). subst value1.
        destruct (Joi.isUndefined v), (Joi.isUndefined (get k value)); auto.
        -- now apply get_delete_other.
        -- now apply get_set_other.
        -- now apply get_set_other.
      * intros k' s' [[= <- <-]|Hin] Hdef.
        -- rewrite Hchild in Hdef |- *. cbn [fst] in Hdef |- *.
           rewrite (Hg k (notIn_isKnown _ _ Hnotin)). subst value1.
           rewrite Hdef. apply get_set_same.
        -- rewrite <- (Hsame k' s' Hin) in Hdef |- *. now apply Hv.
    + rewrite collect.
      set (value1 := if Joi.isUndefined v then _ else _).
      destruct (IH Hnd' value1) as (Ha & Hd & Hg & Hv).
      assert (Hsame : forall k' s', In (k', s') ks -> get k' value1 = get k' value).
      { intros k' s' Hin. subst value1. destruct (Hother v k' s' Hin).
        destruct (Joi.isUndefined v); auto. }
      destruct (Joi.validateKeys h p ks value1) as [[value2 ds] aborted].
      cbn [fst snd] in *.
      split; [exact Ha|]. split; [|split].
      * rewrite Hd. f_equal. now apply fieldErrors_ext.
      * intros k' Hk'. apply isKnown_cons_false in Hk' as [Hne Hk'].
        rewrite (Hg k' Hk'). subst value1.
        destruct (Joi.isUndefined v); auto. now apply get_set_other.
      * intros k' s' [[= <- <-]|Hin] Hdef.
        -- rewrite Hchild in Hdef |- *. cbn [fst] in Hdef |- *.
           rewrite (Hg k (notIn_isKnown _ _ Hnotin)). subst value1.
           rewrite Hdef. apply get_set_same.
        -- rewrite <- (Hsame k' s' Hin) in Hdef |- *. now apply Hv.
Qed.

End CollectAll.



Lemma brandsSchema_keys host :
  map fst (brandsSchema host) =
  ["_id"; "brandName"; "headquarters"; "yearFounded"; "numberOfLocations";
   "createdAt"; "updatedAt"; "__v"].
Proof. reflexivity. Qed.

Lemma brandsSchema_NoDup host : NoDup (map fst (brandsSchema host)).
Proof.
  rewrite brandsSchema_keys.
  repeat (constructor; [cbn; intuition discriminate|]). constructor.
Qed.


(* ------------------------------------------------------------------ *)
(** ** Seed data (C10) *)

Section SeedFacts.

Context {faker : Faker}.

(** The year the clock shows during the call. *)
Variable year : Z.


Lemma generateLoop_brands remaining :
  forall i brandData g,
    evalState (generateLoop year remaining i brandData) g =
    (brandData ++
     map (fun j => brandFrom year (seeded (100 + (i + Z.of_nat j)))) (seq 0 remaining))%list.
Proof.
  induction remaining as [|remaining IH]; intros i brandData g.
  - cbn. now rewrite app_nil_r.
  - unfold evalState in *. cbn -[Z.add Z.of_nat brandFrom seq].
    assert (Hbrand := eq_refl (brandFrom year (seeded (100 + i)))).
    unfold brandFrom at 1 in Hbrand.
    destruct (runState companyName _) as [name g1].
    destruct (runState (numberInt 1600 year) g1) as [founded g2].
    destruct (runState locationCity g2) as [city g3].
    destruct (runState (numberInt 1 100) g3) as [locations g4].
    rewrite IH, Hbrand, <- app_assoc. f_equal.
    cbn [seq map app]. rewrite <- seq_shift, map_map.
    replace (i + Z.of_nat 0) with i by lia. f_equal.
    apply map_ext. intros j. do 2 f_equal. lia.
Qed.


End SeedFacts.

(* ------------------------------------------------------------------ *)
(** * Beyond the claims *)

Import BrandsCrud Coverage.

(* ------------------------------------------------------------------ *)
(** ** Validation with every error collected, for any object schema *)

Section ValidateFacts.

Variable h : Host.
Variable ks : Joi.ObjectSchema.
Hypothesis distinct : NoDup (map fst ks).

Lemma validate_details data :
  details (validate h data ks) =
  (flat_map (fieldErrors h collectAll data) ks ++
   map (unknownDetail data) (unknownKeysOf ks data))%list.
Proof.
  destruct (validateKeys_collects h collectAll eq_refl ks distinct data)
    as (Ha & Hd & Hg & _).
  unfold details, validate, Joi.validate. fold collectAll.
  destruct (Joi.validateKeys h collectAll ks data) as [[value ds] aborted].
  cbn [fst snd] in Ha, Hd, Hg. subst aborted ds.
  cbn [Joi.abortEarly collectAll Joi.error].
  replace (Joi.unknownKeys ks data value)
    with (map (unknownDetail data) (unknownKeysOf ks data)).
  - now destruct (_ ++ _)%list.
  - unfold Joi.unknownKeys, unknownKeysOf. apply map_ext_in. intros k Hin.
    apply filter_In in Hin as [_ Hk]. apply negb_true_iff in Hk.
    unfold unknownDetail. now rewrite (Hg k Hk).
Qed.

Lemma validate_error_none data :
  Joi.error (validate h data ks) = None <-> details (validate h data ks) = [].
Proof.
  unfold details, validate, Joi.validate.
  destruct (Joi.validateKeys h _ ks data) as [[value ds] aborted].
  cbn [Joi.error]. destruct (if aborted then _ else _); split; congruence.
Qed.

Lemma validate_value_known data k s :
  In (k, s) ks ->
  Joi.isUndefined (fst (Joi.validateChild h collectAll s (get k data))) = false ->
  get k (Joi.value (validate h data ks)) =
  fst (Joi.validateChild h collectAll s (get k data)).
Proof.
  destruct (validateKeys_collects h collectAll eq_refl ks distinct data)
    as (_ & _ & _ & Hv).
  unfold validate, Joi.validate. fold collectAll.
  destruct (Joi.validateKeys h collectAll ks data) as [[value ds] aborted].
  cbn [fst snd Joi.value] in *. apply Hv.
Qed.

Lemma validate_value_unknown data k :
  Joi.isKnown ks k = false ->
  get k (Joi.value (validate h data ks)) = get k data.
Proof.
  destruct (validateKeys_collects h collectAll eq_refl ks distinct data)
    as (_ & _ & Hg & _).
  unfold validate, Joi.validate. fold collectAll.
  destruct (Joi.validateKeys h collectAll ks data) as [[value ds] aborted].
  cbn [fst snd Joi.value] in *. apply Hg.
Qed.

Lemma valid_fields data k s :
  Joi.error (validate h data ks) = None ->
  In (k, s) ks ->
  snd (Joi.validateChild h collectAll s (get k data)) = [].
Proof.
  intros Hnone Hin. apply validate_error_none in Hnone.
  rewrite validate_details in Hnone. apply app_eq_nil in Hnone as [Hf _].
  assert (Hall : forall e, In e ks -> fieldErrors h collectAll data e = []).
  { clear Hin. induction ks as [|e l IH]; [intros ? []|].
    cbn [flat_map] in Hf. apply app_eq_nil in Hf as [He Hl].
    intros e' [<-|Hin']; [exact He|].
    apply IH; auto. now inversion distinct. }
  specialize (Hall _ Hin). unfold fieldErrors in Hall. cbn [fst snd] in Hall.
  now apply map_eq_nil in Hall.
Qed.

Lemma valid_no_unknown data k :
  Joi.error (validate h data ks) = None ->
  In k (keys data) -> Joi.isKnown ks k = true.
Proof.
  intros Hnone Hin. apply validate_error_none in Hnone.
  rewrite validate_details in Hnone. apply app_eq_nil in Hnone as [_ Hu].
  apply map_eq_nil in Hu. unfold unknownKeysOf in Hu.
  destruct (Joi.isKnown ks k) eqn:E; [reflexivity|].
  assert (In k (filter (fun k => negb (Joi.isKnown ks k)) (keys data))).
  { apply filter_In. split; [exact Hin | now rewrite E]. }
  rewrite Hu in H. destruct H.
Qed.

End ValidateFacts.

Lemma hasOwn_keys k o : hasOwn k o = true <-> In k (keys o).
Proof.
  induction o as [|[k' v] o IH]; cbn; [split; [discriminate | tauto]|].
  rewrite orb_true_iff, IH. split; intros [H|H]; auto.
  - left. now apply String.eqb_eq in H.
  - left. subst. apply String.eqb_refl.
Qed.

(* ------------------------------------------------------------------ *)
(** ** Keys of a record after writing and deleting *)

Lemma keys_set k k' v o : In k (keys (set k' v o)) -> k = k' \/ In k (keys o).
Proof.
  induction o as [|[k2 v2] o IH]; cbn.
  - intros [<-|[]]. now left.
  - destruct (String.eqb k' k2); cbn; intros [<-|H]; auto.
    destruct (IH H); auto.
Qed.

Lemma keys_delete k k' o : In k (keys (delete k' o)) <-> In k (keys o) /\ k <> k'.
Proof.
  induction o as [|[k2 v2] o IH]; cbn; [tauto|].
  destruct (String.eqb_spec k' k2) as [->|Hne]; cbn; rewrite IH; split.
  - tauto.
  - intros [[<-|H] Hk]; [congruence | tauto].
  - intros [<-|[H Hk]]; [split; [now left | congruence] | tauto].
  - tauto.
Qed.

Lemma keys_deleteAll k ks o :
  In k (keys (deleteAll ks o)) <-> In k (keys o) /\ ~ In k ks.
Proof.
  unfold deleteAll. revert o. induction ks as [|k' ks IH]; intros o; cbn [fold_left].
  - cbn. tauto.
  - rewrite IH, keys_delete. cbn. intuition congruence.
Qed.

Lemma get_deleteAll k ks o : ~ In k ks -> get k (deleteAll ks o) = get k o.
Proof.
  unfold deleteAll. revert o. induction ks as [|k' ks IH]; intros o Hk; cbn [fold_left].
  - reflexivity.
  - rewrite IH by (cbn in Hk; tauto). apply get_delete_other. cbn in Hk. intuition congruence.
Qed.

(* ------------------------------------------------------------------ *)
(** ** The request: failures and calls *)


(* ------------------------------------------------------------------ *)
(** ** The other branches of the repair *)

Lemma numeric_digits s :
  decimalDigits s = true ->
  negb (isNaN (Str s)) && truthy (Str s) = true /\ parseInt (Str s) = Num (digitsValue 10 0 s).
Proof.
  intros Hd. cbn [isNaN truthy parseInt].
  rewrite (isNumericString_digits _ Hd), (parseIntString_digits _ Hd).
  destruct s; [discriminate Hd | now split].
Qed.


Lemma isNumericString_empty : isNumericString "" = true.
Proof. reflexivity. Qed.

(** X7: on an error classified as Headquarters the field is gone from the
    repaired record; a string that is no number is moved to [headquarters],
    a value that is a number is only deleted, and no other field changes. *)
Theorem headquarters_error_moves_text_only :
  forall (validated brand : JS.object) (error : Joi.Detail),
    classify (Joi.contextKey error) = Headquarters ->
    let key := Joi.contextKey error in
    let repaired := conformError validated brand error in
    hasOwn key repaired = false
    /\ (forall s, Joi.contextValue error = Str s -> isNumericString s = false ->
          key <> "headquarters" -> get "headquarters" repaired = Str s)
    /\ (isNaN (Joi.contextValue error) = false -> repaired = delete key brand)
    /\ (forall k, k <> key -> k <> "headquarters" -> get k repaired = get k brand).
Proof.
  intros validated brand error Hclass key repaired.
  assert (E : repaired = conformHeadquarters brand key (Joi.contextValue error)).
  { subst repaired. unfold conformError. unfold classify in Hclass.
    destruct (includes "year" _); [discriminate|].
    destruct (includes "locations" _); [discriminate|].
    destruct (includes "hqaddress" _); [reflexivity|].
    destruct (includes "brandname" _); discriminate. }
  rewrite E. unfold conformHeadquarters. split; [apply hasOwn_delete | split; [|split]].
  - intros s Hs Hn Hk. rewrite Hs. cbn [isNaN truthy]. rewrite Hn.
    destruct s as [|c r]; [discriminate Hn|]. cbn [negb String.eqb andb].
    rewrite get_delete_other by congruence. apply get_set_same.
  - now intros ->.
  - intros k Hk Hn. rewrite get_delete_other by assumption.
    destruct (isNaN (Joi.contextValue error) && truthy (Joi.contextValue error));
      [now apply get_set_other | reflexivity].
Qed.

(* ------------------------------------------------------------------ *)
(** ** What the repair leaves alone *)

Lemma brandKey_includes validated k :
  List.find (fun key => includes "brand" (toLowerCase key)) (keys validated) = Some k ->
  includes "brand" (toLowerCase k) = true.
Proof. intros H. now apply find_some in H. Qed.

Lemma conformError_keys validated brand error k :
  In k (keys (conformError validated brand error)) ->
  In k (keys brand) \/ In k canonical.
Proof.
  unfold conformError, conformYear, conformLocations, conformHeadquarters, conformBrandName.
  repeat match goal with
         | |- context [if ?c then _ else _] => destruct c
         end;
    intros H; apply keys_delete in H as [H _];
    try (apply keys_set in H as [->|H]); auto; right; cbn; auto.
Qed.

Lemma conformError_id validated brand error :
  Joi.contextKey error <> "_id" ->
  get "_id" (conformError validated brand error) = get "_id" brand.
Proof.
  intros Hk.
  assert (Hfound : propertyKey (List.find (fun key => includes "brand" (toLowerCase key))
                                          (keys validated)) <> "_id").
  { destruct (List.find _ _) as [k|] eqn:E; cbn; [|discriminate].
    intros ->. apply brandKey_includes in E. discriminate E. }
  unfold conformError, conformYear, conformLocations, conformHeadquarters, conformBrandName.
  repeat match goal with
         | |- context [if ?c then _ else _] => destruct c
         end;
    rewrite get_delete_other by congruence;
    try (rewrite get_set_other by discriminate); reflexivity.
Qed.

Lemma fold_conformError_keys validated ds : forall brand k,
  In k (keys (fold_left (conformError validated) ds brand)) ->
  In k (keys brand) \/ In k canonical.
Proof.
  induction ds as [|d ds IH]; intros brand k; cbn [fold_left]; [now left|].
  intros H. apply IH in H as [H|H]; [|now right].
  now apply conformError_keys in H.
Qed.

Lemma fold_conformError_id validated ds : forall brand,
  Forall (fun d => Joi.contextKey d <> "_id") ds ->
  get "_id" (fold_left (conformError validated) ds brand) = get "_id" brand.
Proof.
  induction ds as [|d ds IH]; intros brand Hall; cbn [fold_left]; [reflexivity|].
  inversion Hall; subst. rewrite IH by assumption. now apply conformError_id.
Qed.

Lemma error_some_details (r : Joi.Result) ds : Joi.error r = Some ds -> details r = ds.
Proof. unfold details. now intros ->. Qed.

Lemma conformBrand_invalid host brand :
  conformBrand host brand =
  if isInvalid host (brandsSchema host) brand
  then Some (fold_left (conformError (Joi.value (validate host brand (brandsSchema host))))
                       (details (validate host brand (brandsSchema host))) brand)
  else None.
Proof.
  unfold conformBrand, isInvalid, details.
  now destruct (Joi.error (validate host brand (brandsSchema host))).
Qed.

(** X8: every record the repair pass returns comes from a fetched brand
    that fails validation, and each of its keys is a key of that brand or
    one of the four canonical fields: the repair adds nothing else. *)
Theorem repair_adds_only_canonical_fields :
  forall (host : Host) (brands : list JS.object) (repaired : JS.object),
    In repaired (updateToConformSchema host brands) ->
    exists brand,
      In brand brands
      /\ isInvalid host (brandsSchema host) brand = true
      /\ forall k, In k (keys repaired) -> In k (keys brand) \/ In k canonical.
Proof.
  intros host brands repaired. induction brands as [|brand brands IH]; [intros []|].
  rewrite repair_cons, conformBrand_invalid.
  destruct (isInvalid host (brandsSchema host) brand) eqn:E.
  - intros [<-|H].
    + exists brand. split; [now left|]. split; [exact E|].
      intros k. apply fold_conformError_keys.
    + destruct (IH H) as (b & Hb & Hrest). exists b. split; [now right | exact Hrest].
  - intros H. destruct (IH H) as (b & Hb & Hrest). exists b. split; [now right | exact Hrest].
Qed.

Lemma fieldErrors_key h p data entry d :
  In d (fieldErrors h p data entry) -> Joi.contextKey d = fst entry.
Proof.
  unfold fieldErrors. intros H. apply in_map_iff in H as (e & <- & _). reflexivity.
Qed.

Lemma details_avoid_id host brand hex :
  get "_id" brand = ObjectId hex ->
  Forall (fun d => Joi.contextKey d <> "_id") (details (validate host brand (brandsSchema host))).
Proof.
  intros Hid. rewrite (validate_details host _ (brandsSchema_NoDup host)).
  apply Forall_forall. intros d Hd. apply in_app_or in Hd as [Hd|Hd].
  - apply in_flat_map in Hd as (entry & Hentry & Hd).
    pose proof (fieldErrors_key _ _ _ _ _ Hd) as Hkey. rewrite Hkey.
    cbn in Hentry.
    destruct Hentry as [<-|Hentry].
    { unfold fieldErrors in Hd. cbn [fst snd] in Hd. rewrite Hid in Hd. destruct Hd. }
    repeat (destruct Hentry as [<-|Hentry]; [discriminate|]). destruct Hentry.
  - apply in_map_iff in Hd as (k & <- & Hk). cbn [unknownDetail Joi.contextKey].
    apply filter_In in Hk as [_ Hk]. intros ->. discriminate Hk.
Qed.

Lemma repaired_brand_keeps_id host brand repaired hex :
  get "_id" brand = ObjectId hex ->
  conformBrand host brand = Some repaired ->
  filterId (bulkOp (Joi.value (validate host repaired (brandsSchema host)))) = ObjectId hex.
Proof.
  intros Hid. rewrite conformBrand_invalid.
  destruct (isInvalid host (brandsSchema host) brand); [|discriminate].
  intros [= <-]. cbn [filterId bulkOp].
  set (r := fold_left _ _ brand).
  assert (Hr : get "_id" r = ObjectId hex).
  { subst r. rewrite fold_conformError_id; [exact Hid|]. now apply (details_avoid_id host brand hex). }
  rewrite (validate_value_known host _ (brandsSchema_NoDup host) r "_id" Joi.object).
  - now rewrite Hr.
  - cbn. auto.
  - now rewrite Hr.
Qed.

(** X2: when the fetched brands carry ObjectIds, the filters of the bulk
    write are the identifiers of the brands that fail validation, in the
    order they were fetched: the repair and the second validation pass keep
    the identifier. *)
Theorem bulk_write_targets_the_invalid_brands :
  forall (host : Host) (brandModel : Model) (brands : list JS.object),
    find brandModel = Some brands ->
    Forall (fun brand => exists hex, get "_id" brand = ObjectId hex) brands ->
    map filterId (writtenOps (snd (validateAndUpdate host brandModel))) =
    map (get "_id") (filter (isInvalid host (brandsSchema host)) brands).
Proof.
  intros host brandModel brands Hfind Hids.
  assert (Hops : map (fun r => filterId (bulkOp (Joi.value (validate host r (brandsSchema host)))))
                     (updateToConformSchema host brands) =
                 map (get "_id") (filter (isInvalid host (brandsSchema host)) brands)).
  { clear Hfind. induction Hids as [|brand brands [hex Hid] _ IH]; [reflexivity|].
    rewrite repair_cons. cbn [filter].
    pose proof (repaired_brand_keeps_id host brand) as Hkeep.
    rewrite conformBrand_invalid in Hkeep |- *.
    destruct (isInvalid host (brandsSchema host) brand).
    - cbn [map]. rewrite IH, (Hkeep _ hex Hid eq_refl). now rewrite Hid.
    - exact IH. }
  rewrite <- Hops. unfold validateAndUpdate. rewrite Hfind.
  destruct (updateToConformSchema host brands) as [|first others]; [reflexivity|].
  cbn [length Z.of_nat Z.eqb].
  destruct (bulkWrite brandModel _); cbn [snd writtenOps]; rewrite app_nil_r, !map_map; reflexivity.
Qed.

(* ------------------------------------------------------------------ *)
(** ** Records whose only faults are fields the schema does not know *)

Lemma childError_known h s item e :
  In e (snd (Joi.validateChild h collectAll s item)) -> fst e <> "object.unknown".
Proof.
  unfold Joi.validateChild. cbn [Joi.convert Joi.abortEarly collectAll].
  assert (Hbase : forall v t, In t (Joi.validateBase s v) -> t <> "object.unknown").
  { intros v t. unfold Joi.validateBase.
    destruct (Joi.base s), v; cbn;
      repeat match goal with |- context [if ?c then _ else _] => destruct c end;
      cbn; intuition (subst; discriminate). }
  assert (Hrules : forall v t, In t (Joi.validateRules collectAll s v) -> t <> "object.unknown").
  { intros v t. unfold Joi.validateRules.
    destruct v; cbn; try tauto;
      repeat match goal with
             | |- context [match ?c with Some _ => _ | None => _ end] => destruct c
             | |- context [if ?c then _ else _] => destruct c
             end;
      cbn; intuition (subst; discriminate). }
  assert (Hrest : forall v,
            In e (snd (match Joi.validateBase s v with
                       | [] => (Joi.finalize s v,
                                map (fun e => (e, v)) (Joi.validateRules collectAll s v))
                       | t :: ts => (Joi.finalize s v, map (fun e => (e, v)) (t :: ts))
                       end)) -> fst e <> "object.unknown").
  { intros v. destruct (Joi.validateBase s v) as [|t ts] eqn:Eb; cbn [snd];
      intros H; apply in_map_iff in H as (t' & <- & Ht); cbn [fst].
    - now apply (Hrules v).
    - apply (Hbase v). now rewrite Eb. }
  destruct (Joi.coerce h s item); try apply Hrest.
  cbn [snd]. destruct (Joi.presenceRequired s); cbn; [|tauto].
  intros [<-|[]]. discriminate.
Qed.

Lemma filter_none {A} (f : A -> bool) l : (forall x, In x l -> f x = false) -> filter f l = [].
Proof.
  induction l as [|x l IH]; cbn; intros H; [reflexivity|].
  rewrite (H x) by now left. apply IH. intros y Hy. apply H. now right.
Qed.

Lemma no_elements {A} (l : list A) : (forall x, ~ In x l) -> l = [].
Proof. destruct l as [|x l]; [reflexivity|]. intros H. destruct (H x). now left. Qed.

Lemma conformError_unknown validated brand data k :
  classify k = Unknown ->
  conformError validated brand (unknownDetail data k) = delete k brand.
Proof.
  unfold classify, conformError. cbn [unknownDetail Joi.contextKey Joi.contextValue].
  destruct (includes "year" _); [discriminate|].
  destruct (includes "locations" _); [discriminate|].
  destruct (includes "hqaddress" _); [discriminate|].
  destruct (includes "brandname" _); [discriminate|]. reflexivity.
Qed.

Lemma fold_conformError_unknown validated data ks : forall brand,
  Forall (fun k => classify k = Unknown) ks ->
  fold_left (conformError validated) (map (unknownDetail data) ks) brand = deleteAll ks brand.
Proof.
  unfold deleteAll. induction ks as [|k ks IH]; intros brand Hall; [reflexivity|].
  inversion Hall; subst. cbn [map fold_left].
  rewrite conformError_unknown by assumption. now apply IH.
Qed.

(** X4: a brand whose only validation errors are unknown fields with no
    anchor in their names is repaired by deleting exactly those fields; the
    fields of the schema keep their values and the repaired record
    validates. *)
Theorem unknown_fields_are_dropped_and_the_record_validates :
  forall (host : Host) (brand : JS.object) (d : Joi.Detail) (ds : list Joi.Detail),
    Joi.error (validate host brand (brandsSchema host)) = Some (d :: ds) ->
    Forall (fun d => Joi.type d = "object.unknown" /\ classify (Joi.contextKey d) = Unknown)
           (d :: ds) ->
    let repaired := deleteAll (unknownKeysOf (brandsSchema host) brand) brand in
    updateToConformSchema host [brand] = [repaired]
    /\ Joi.error (validate host repaired (brandsSchema host)) = None
    /\ (forall k, Joi.isKnown (brandsSchema host) k = true -> get k repaired = get k brand)
    /\ (forall k, In k (keys repaired) <->
                  In k (keys brand) /\ Joi.isKnown (brandsSchema host) k = true).
Proof.
  intros host brand d ds Herr Hall repaired.
  set (schema := brandsSchema host) in *.
  pose proof (brandsSchema_NoDup host) as Hnd. fold schema in Hnd.
  pose proof (error_some_details _ _ Herr) as Hdet.
  rewrite (validate_details host schema Hnd) in Hdet.
  assert (Hfields : flat_map (fieldErrors host collectAll brand) schema = []).
  { apply no_elements. intros e He.
    assert (Hin : In e (d :: ds)) by (rewrite <- Hdet; apply in_or_app; now left).
    rewrite Forall_forall in Hall. destruct (Hall e Hin) as [Htype _].
    apply in_flat_map in He as (entry & _ & He). unfold fieldErrors in He.
    apply in_map_iff in He as (c & <- & Hc). cbn [Joi.detail Joi.type] in Htype.
    now apply childError_known in Hc. }
  rewrite Hfields in Hdet. cbn [app] in Hdet.
  assert (Hclass : Forall (fun k => classify k = Unknown) (unknownKeysOf schema brand)).
  { apply Forall_forall. intros k Hk. rewrite Forall_forall in Hall.
    destruct (Hall (unknownDetail brand k)) as [_ Hc]; [|exact Hc].
    rewrite <- Hdet. now apply in_map. }
  assert (Hknown : forall k, Joi.isKnown schema k = true -> ~ In k (unknownKeysOf schema brand)).
  { intros k Hk Hin. apply filter_In in Hin as [_ Hin]. now rewrite Hk in Hin. }
  assert (Hget : forall k, Joi.isKnown schema k = true -> get k repaired = get k brand).
  { intros k Hk. subst repaired. apply get_deleteAll. now apply Hknown. }
  assert (Hkeys : forall k, In k (keys repaired) <-> In k (keys brand) /\ Joi.isKnown schema k = true).
  { intros k. subst repaired. rewrite keys_deleteAll. split.
    - intros [Hin Hnot]. split; [exact Hin|].
      destruct (Joi.isKnown schema k) eqn:E; [reflexivity|].
      exfalso. apply Hnot. apply filter_In. split; [exact Hin | now rewrite E].
    - intros [Hin Hk]. split; [exact Hin | now apply Hknown]. }
  split; [|split; [|split; assumption]].
  - unfold updateToConformSchema, conformBrand. cbn [map]. fold schema. rewrite Herr.
    cbn [filterBoolean]. rewrite <- Hdet. now rewrite fold_conformError_unknown.
  - apply (validate_error_none host schema). rewrite (validate_details host schema Hnd).
    rewrite (fieldErrors_ext host collectAll brand repaired schema), Hfields.
    + cbn [app]. unfold unknownKeysOf. rewrite filter_none; [reflexivity|].
      intros k Hk. apply Hkeys in Hk as [_ Hk]. now rewrite Hk.
    + intros k s Hin. apply Hget. unfold Joi.isKnown. apply existsb_exists.
      exists (k, s). split; [exact Hin | apply String.eqb_refl].
Qed.

Lemma unknown_fields_are_dropped_and_the_record_validates_witness :
  Joi.error (validate host2024 withNotes (brandsSchema host2024)) =
    Some [unknownDetail withNotes "notes"] /\
  Forall (fun d => Joi.type d = "object.unknown" /\ classify (Joi.contextKey d) = Unknown)
         [unknownDetail withNotes "notes"] /\
  updateToConformSchema host2024 [withNotes] = [conformant].
Proof.
  assert (H1 : Joi.error (validate host2024 withNotes (brandsSchema host2024)) =
               Some [unknownDetail withNotes "notes"]) by (vm_compute; reflexivity).
  assert (H2 : Forall (fun d => Joi.type d = "object.unknown" /\
                                classify (Joi.contextKey d) = Unknown)
                      [unknownDetail withNotes "notes"]).
  { constructor; [split; vm_compute; reflexivity | constructor]. }
  split; [exact H1|]. split; [exact H2|].
  exact (proj1 (unknown_fields_are_dropped_and_the_record_validates
                  host2024 withNotes _ _ H1 H2)).
Defined.

(* ------------------------------------------------------------------ *)
(** ** Trimming twice *)

Lemma isBlank_trimEnd s : isBlank (trimEnd s) = isBlank s.
Proof.
  induction s as [|c r IH]; [reflexivity|].
  cbn [trimEnd]. destruct (isBlank (String c r)) eqn:E; [reflexivity|].
  cbn [isBlank] in E |- *. now rewrite IH.
Qed.

Lemma trimEnd_idempotent s : trimEnd (trimEnd s) = trimEnd s.
Proof.
  induction s as [|c r IH]; [reflexivity|].
  cbn [trimEnd]. destruct (isBlank (String c r)) eqn:E; [reflexivity|].
  cbn [trimEnd]. cbn [isBlank] in E |- *. rewrite isBlank_trimEnd, E. now rewrite IH.
Qed.

Lemma trimStart_fixed s :
  match s with String c _ => isWhiteSpace c = false | EmptyString => True end ->
  trimStart s = s.
Proof. destruct s as [|c r]; [reflexivity|]. cbn. now intros ->. Qed.

Lemma trimStart_head s :
  match trimStart s with String c _ => isWhiteSpace c = false | EmptyString => True end.
Proof.
  induction s as [|c r IH]; [exact I|].
  cbn [trimStart]. destruct (isWhiteSpace c) eqn:E; [exact IH | exact E].
Qed.

Lemma trimEnd_head s :
  match s with String c _ => isWhiteSpace c = false | EmptyString => True end ->
  match trimEnd s with String c _ => isWhiteSpace c = false | EmptyString => True end.
Proof.
  destruct s as [|c r]; [auto|]. intros Hc. cbn [trimEnd isBlank]. rewrite Hc. exact Hc.
Qed.

Lemma trim_idempotent s : JS.trim (JS.trim s) = JS.trim s.
Proof.
  unfold JS.trim. rewrite (trimStart_fixed (trimEnd (trimStart s))).
  - apply trimEnd_idempotent.
  - apply trimEnd_head, trimStart_head.
Qed.

(* ------------------------------------------------------------------ *)
(** ** What a valid brand holds *)

Lemma valid_string h s item :
  Joi.base s = Joi.TString -> Joi.presenceRequired s = true -> Joi.ruleTrim s = true ->
  snd (Joi.validateChild h collectAll s item) = [] ->
  BrandSchema.requiredString (fst (Joi.validateChild h collectAll s item)) = true.
Proof.
  intros Hb Hr Ht. unfold Joi.validateChild. cbn [Joi.convert Joi.abortEarly collectAll].
  unfold Joi.coerce, Joi.validateBase, Joi.finalize. rewrite Hb, Hr, Ht.
  destruct item as [| |b|z| |x|t|hex|props]; cbn; try discriminate.
  destruct (isEmpty (JS.trim x)) eqn:E; cbn; [discriminate|].
  intros _. now rewrite trim_idempotent, E.
Qed.

Lemma valid_number h s item lo hi :
  Joi.base s = Joi.TNumber -> Joi.presenceRequired s = true ->
  Joi.ruleMin s = Some lo -> Joi.ruleMax s = hi ->
  snd (Joi.validateChild h collectAll s item) = [] ->
  BrandSchema.requiredNumber lo hi (fst (Joi.validateChild h collectAll s item)) = true.
Proof.
  intros Hb Hr Hlo Hhi. unfold Joi.validateChild. cbn [Joi.convert Joi.abortEarly collectAll].
  assert (Hnum : forall z,
            snd (match Joi.validateBase s (Num z) with
                 | [] => (Joi.finalize s (Num z),
                          map (fun e => (e, Num z)) (Joi.validateRules collectAll s (Num z)))
                 | t :: ts => (Joi.finalize s (Num z), map (fun e => (e, Num z)) (t :: ts))
                 end) = [] ->
            BrandSchema.requiredNumber lo hi
              (fst (match Joi.validateBase s (Num z) with
                    | [] => (Joi.finalize s (Num z),
                             map (fun e => (e, Num z)) (Joi.validateRules collectAll s (Num z)))
                    | t :: ts => (Joi.finalize s (Num z), map (fun e => (e, Num z)) (t :: ts))
                    end)) = true).
  { intros z. destruct (Joi.validateBase s (Num z)); cbn [fst snd]; [|discriminate].
    unfold Joi.validateRules. rewrite Hlo, Hhi. cbn [Joi.finalize BrandSchema.requiredNumber].
    destruct (lo <=? z); cbn; [|discriminate].
    destruct hi as [hi|]; [|reflexivity]. destruct (z <=? hi); cbn; [reflexivity | discriminate]. }
  unfold Joi.coerce. rewrite Hb.
  destruct item as [| |b|z| |x|t|hex|props];
    try (unfold Joi.validateBase; rewrite ?Hb, ?Hr; cbn; discriminate);
    try apply Hnum.
  destruct (Joi.numberLiteral x); [apply Hnum|].
  unfold Joi.validateBase; rewrite Hb; cbn; discriminate.
Qed.

Section ValidBrand.

Variable h : Host.
Variable ks : Joi.ObjectSchema.
Hypothesis distinct : NoDup (map fst ks).
Hypothesis hasName : In ("brandName", Joi.trim (Joi.required Joi.string)) ks.
Hypothesis hasHeadquarters : In ("headquarters", Joi.trim (Joi.required Joi.string)) ks.
Hypothesis hasYear :
  In ("yearFounded",
      Joi.default (Num 1600) (Joi.max (currentYear h) (Joi.min 1600 (Joi.required Joi.number)))) ks.
Hypothesis hasLocations :
  In ("numberOfLocations", Joi.default (Num 1) (Joi.min 1 (Joi.required Joi.number))) ks.

Lemma requiredString_defined v : BrandSchema.requiredString v = true -> Joi.isUndefined v = false.
Proof. now destruct v. Qed.

Lemma requiredNumber_defined lo hi v :
  BrandSchema.requiredNumber lo hi v = true -> Joi.isUndefined v = false.
Proof. now destruct v. Qed.

Lemma valid_value_satisfies_validators data :
  Joi.error (validate h data ks) = None ->
  BrandSchema.validators h (Joi.value (validate h data ks)) = true.
Proof.
  intros Hnone. unfold BrandSchema.validators.
  set (sName := Joi.trim (Joi.required Joi.string)) in *.
  set (sYear := Joi.default (Num 1600)
                  (Joi.max (currentYear h) (Joi.min 1600 (Joi.required Joi.number)))) in *.
  set (sLocations := Joi.default (Num 1) (Joi.min 1 (Joi.required Joi.number))) in *.
  pose proof (valid_string h sName (get "brandName" data) eq_refl eq_refl eq_refl
                (valid_fields h ks distinct data _ _ Hnone hasName)) as H1.
  pose proof (valid_string h sName (get "headquarters" data) eq_refl eq_refl eq_refl
                (valid_fields h ks distinct data _ _ Hnone hasHeadquarters)) as H2.
  pose proof (valid_number h sYear (get "yearFounded" data) 1600 (Some (currentYear h))
                eq_refl eq_refl eq_refl eq_refl
                (valid_fields h ks distinct data _ _ Hnone hasYear)) as H3.
  pose proof (valid_number h sLocations (get "numberOfLocations" data) 1 None
                eq_refl eq_refl eq_refl eq_refl
                (valid_fields h ks distinct data _ _ Hnone hasLocations)) as H4.
  rewrite (validate_value_known h ks distinct data _ _ hasName (requiredString_defined _ H1)).
  rewrite (validate_value_known h ks distinct data _ _ hasHeadquarters (requiredString_defined _ H2)).
  rewrite (validate_value_known h ks distinct data _ _ hasYear (requiredNumber_defined _ _ _ H3)).
  rewrite (validate_value_known h ks distinct data _ _ hasLocations (requiredNumber_defined _ _ _ H4)).
  now rewrite H1, H2, H3, H4.
Qed.

End ValidBrand.

(* ------------------------------------------------------------------ *)
(** ** The Joi schemas against the Mongoose schema *)

Lemma createBrandsSchema_NoDup host : NoDup (map fst (createBrandsSchema host)).
Proof.
  cbn. repeat (constructor; [cbn; intuition discriminate|]). constructor.
Qed.

Lemma updateBrandsSchema_NoDup host : NoDup (map fst (updateBrandsSchema host)).
Proof.
  cbn. repeat (constructor; [cbn; intuition discriminate|]). constructor.
Qed.

(** X9: the value of a record that [brandsSchema] or [createBrandsSchema]
    accepts passes the validators of the Mongoose schema: both names are
    strings that are not empty once trimmed, the year is a number from 1600
    to the current year and the number of locations is at least 1. *)
Theorem accepted_brand_satisfies_the_mongoose_validators :
  forall (host : Host) (data : JS.object),
    (Joi.error (validate host data (brandsSchema host)) = None ->
     BrandSchema.validators host (Joi.value (validate host data (brandsSchema host))) = true)
    /\ (Joi.error (validate host data (createBrandsSchema host)) = None ->
        BrandSchema.validators host
          (Joi.value (validate host data (createBrandsSchema host))) = true).
Proof.
  intros host data. split; intros Hnone.
  - apply valid_value_satisfies_validators; try assumption;
      [apply brandsSchema_NoDup | cbn; auto 10 ..].
  - apply valid_value_satisfies_validators; try assumption;
      [apply createBrandsSchema_NoDup | cbn; auto 10 ..].
Qed.

(** X10: [create] saves at most one document, the validated value of the
    request; what it saves passes the validators of the Mongoose schema, and
    the request had no field beside the four canonical ones. *)
Theorem create_saves_only_valid_brands :
  forall (host : Host) (errorMessage : list Joi.Detail -> string)
         (brandModel : Store) (createBrandDto doc : JS.object),
    In (Save doc) (snd (create host errorMessage brandModel createBrandDto)) ->
    doc = Joi.value (validate host createBrandDto (createBrandsSchema host))
    /\ BrandSchema.validators host doc = true
    /\ (forall k, In k (keys createBrandDto) -> In k canonical)
    /\ snd (create host errorMessage brandModel createBrandDto) = [Save doc].
Proof.
  intros host errorMessage brandModel dto doc. unfold create.
  destruct (Joi.error (validate host dto (createBrandsSchema host))) as [ds|] eqn:E;
    cbn [snd]; [intros []|].
  intros [[= <-]|[]]. split; [reflexivity|]. split; [|split; [|reflexivity]].
  - apply valid_value_satisfies_validators; try assumption;
      [apply createBrandsSchema_NoDup | cbn; auto 10 ..].
  - intros k Hk.
    pose proof (valid_no_unknown host _ (createBrandsSchema_NoDup host) dto k E Hk) as Hknown.
    unfold Joi.isKnown in Hknown. apply existsb_exists in Hknown as (e & He & Heq).
    apply String.eqb_eq in Heq as ->. cbn in He |- *.
    repeat (destruct He as [<-|He]; [cbn; auto|]). destruct He.
Qed.

Lemma create_saves_only_valid_brands_witness :
  In (Save createSaved) (snd (create host2024 noMessage emptyStore createDto)) /\
  BrandSchema.validators host2024 createSaved = true.
Proof.
  assert (H : In (Save createSaved) (snd (create host2024 noMessage emptyStore createDto))).
  { vm_compute. now left. }
  split; [exact H|].
  exact (proj1 (proj2 (create_saves_only_valid_brands host2024 noMessage emptyStore
                         createDto createSaved H))).
Defined.

Lemma unknown_key_is_reported h ks data k :
  NoDup (map fst ks) -> In k (keys data) -> Joi.isKnown ks k = false ->
  exists ds, Joi.error (validate h data ks) = Some ds /\ In (unknownDetail data k) ds.
Proof.
  intros Hnd Hin Hk.
  assert (Hd : In (unknownDetail data k) (details (validate h data ks))).
  { rewrite (validate_details h ks Hnd). apply in_or_app. right. apply in_map.
    apply filter_In. split; [exact Hin | now rewrite Hk]. }
  unfold details in Hd. destruct (Joi.error (validate h data ks)) as [ds|]; [|destruct Hd].
  now exists ds.
Qed.

Lemma not_canonical k : ~ In k canonical ->
  forall host, Joi.isKnown (createBrandsSchema host) k = false
               /\ Joi.isKnown (updateBrandsSchema host) k = false.
Proof.
  intros Hk host. unfold Joi.isKnown. cbn.
  repeat match goal with
         | |- context [String.eqb k ?s] =>
             destruct (String.eqb_spec k s); [exfalso; apply Hk; subst; cbn; auto 10|]
         end.
  now split.
Qed.

(** X11: a request body with any field beside the four canonical ones
    ([_id], say) is refused by [create] and by [update] with a
    BadRequestException that reports the field, and the model is not
    called. *)
Theorem create_and_update_refuse_other_fields :
  forall (host : Host) (errorMessage : list Joi.Detail -> string)
         (brandModel : Store) (id : string) (dto : JS.object) (k : string),
    In k (keys dto) ->
    ~ In k canonical ->
    (exists ds, In (unknownDetail dto k) ds
                /\ create host errorMessage brandModel dto =
                   (BadRequestException (errorMessage ds), []))
    /\ (exists ds, In (unknownDetail dto k) ds
                   /\ update host errorMessage brandModel id dto =
                      (BadRequestException (errorMessage ds), [])).
Proof.
  intros host errorMessage brandModel id dto k Hin Hk.
  destruct (not_canonical k Hk host) as [Hc Hu]. split.
  - destruct (unknown_key_is_reported host _ dto k (createBrandsSchema_NoDup host) Hin Hc)
      as (ds & E & Hd).
    exists ds. split; [exact Hd|]. unfold create. now rewrite E.
  - destruct (unknown_key_is_reported host _ dto k (updateBrandsSchema_NoDup host) Hin Hu)
      as (ds & E & Hd).
    exists ds. split; [exact Hd|]. unfold update. now rewrite E.
Qed.

Lemma create_and_update_refuse_other_fields_witness :
  In "_id" (keys conformant) /\ ~ In "_id" canonical /\
  fst (create host2024 noMessage emptyStore conformant) = BadRequestException "" /\
  snd (update host2024 noMessage emptyStore "65f1c0ffee0ddba11ad0be57" conformant) = [].
Proof.
  assert (H1 : In "_id" (keys conformant)) by (cbn; auto).
  assert (H2 : ~ In "_id" canonical) by (cbn; intuition discriminate).
  split; [exact H1|]. split; [exact H2|].
  destruct (create_and_update_refuse_other_fields host2024 noMessage emptyStore
              "65f1c0ffee0ddba11ad0be57" conformant "_id" H1 H2)
    as [(ds & _ & Ec) (ds' & _ & Eu)].
  rewrite Ec, Eu. split; reflexivity.
Defined.

(* ------------------------------------------------------------------ *)
(** ** More on the seed data *)

Section SeedCoverage.

Context {faker : Faker}.
Variable year : Z.

Lemma brandFrom_keys g : keys (brandFrom year g) = canonical.
Proof.
  unfold brandFrom.
  destruct (runState companyName g) as [name g1].
  destruct (runState (numberInt 1600 year) g1) as [founded g2].
  destruct (runState locationCity g2) as [city g3].
  now destruct (runState (numberInt 1 100) g3) as [locations g4].
Qed.

Lemma generateLoop_step remaining i brandData g :
  runState (generateLoop year (S remaining) i brandData) g =
  let '(name, g1) := runState companyName (seeded (100 + i)) in
  let '(founded, g2) := runState (numberInt 1600 year) g1 in
  let '(city, g3) := runState locationCity g2 in
  let '(locations, g4) := runState (numberInt 1 100) g3 in
  runState (generateLoop year remaining (i + 1)
              (brandData ++ [[ ("brandName", Str name); ("yearFounded", Num founded);
                               ("headquarters", Str city);
                               ("numberOfLocations", Num locations) ]])%list) g4.
Proof.
  cbn -[Z.add generateLoop]. cbn [generateLoop]. cbn -[Z.add generateLoop].
  destruct (runState companyName (seeded (100 + i))) as [name g1].
  destruct (runState (numberInt 1600 year) g1) as [founded g2].
  destruct (runState locationCity g2) as [city g3].
  now destruct (runState (numberInt 1 100) g3) as [locations g4].
Qed.

Lemma generateLoop_state remaining :
  forall i brandData g,
    execState (generateLoop year (S remaining) i brandData) g =
    stateAfterBrand year (seeded (100 + (i + Z.of_nat remaining))).
Proof.
  induction remaining as [|remaining IH]; intros i brandData g;
    unfold execState in *; rewrite generateLoop_step.
  - unfold stateAfterBrand. replace (i + Z.of_nat 0) with i by lia.
    destruct (runState companyName _) as [name g1].
    destruct (runState (numberInt 1600 year) g1) as [founded g2].
    destruct (runState locationCity g2) as [city g3].
    now destruct (runState (numberInt 1 100) g3) as [locations g4].
  - destruct (runState companyName (seeded (100 + i))) as [name g1].
    destruct (runState (numberInt 1600 year) g1) as [founded g2].
    destruct (runState locationCity g2) as [city g3].
    destruct (runState (numberInt 1 100) g3) as [locations g4].
    rewrite IH. do 2 f_equal. lia.
Qed.

(** X12: [generateBrandsData] returns as many brands as asked for (none for
    a count of zero or less, leaving the generator as it was), each with the
    four canonical fields and no other, and for a positive count leaves the
    generator in the state that follows the draws of the last brand. *)
Theorem generated_brands_count_shape_and_generator :
  forall (numberOfBrands : Z) (g : Generator),
    length (evalState (generateBrandsData year numberOfBrands) g) = Z.to_nat numberOfBrands
    /\ (numberOfBrands <= 0 -> runState (generateBrandsData year numberOfBrands) g = ([], g))
    /\ (0 < numberOfBrands ->
        execState (generateBrandsData year numberOfBrands) g =
        stateAfterBrand year (seeded (100 + (numberOfBrands - 1))))
    /\ Forall (fun brand => keys brand = canonical)
              (evalState (generateBrandsData year numberOfBrands) g).
Proof.
  intros n g. unfold generateBrandsData. split; [|split; [|split]].
  - now rewrite generateLoop_brands, length_app, length_map, length_seq.
  - intros Hn. replace (Z.to_nat n) with 0%nat by lia. reflexivity.
  - intros Hn. destruct (Z.to_nat n) as [|m] eqn:E; [lia|].
    rewrite generateLoop_state. do 2 f_equal. lia.
  - rewrite generateLoop_brands. cbn [app]. apply Forall_forall.
    intros brand Hin. apply in_map_iff in Hin as (j & <- & _). apply brandFrom_keys.
Qed.

End SeedCoverage.

Lemma validateChild_string_ok h s x :
  Joi.base s = Joi.TString -> Joi.ruleTrim s = true ->
  isEmpty (JS.trim x) = false ->
  snd (Joi.validateChild h collectAll s (Str x)) = [].
Proof.
  intros Hb Ht Hx. unfold Joi.validateChild. cbn [Joi.convert Joi.abortEarly collectAll].
  unfold Joi.coerce, Joi.validateBase. rewrite Hb, Ht. rewrite Hx. cbn.
  now rewrite ?Ht.
Qed.

Lemma validateChild_number_ok h s z :
  Joi.base s = Joi.TNumber ->
  Z.abs z <= Joi.MAX_SAFE_INTEGER ->
  (forall lo, Joi.ruleMin s = Some lo -> lo <= z) ->
  (forall hi, Joi.ruleMax s = Some hi -> z <= hi) ->
  snd (Joi.validateChild h collectAll s (Num z)) = [].
Proof.
  intros Hb Hsafe Hlo Hhi.
  rewrite (validateChild_number h s (Num z) z); auto.
  unfold Joi.coerce. now rewrite Hb.
Qed.

Ltac read_fields :=
  repeat match goal with
         | |- context [get ?k ?o] =>
             let r := eval vm_compute in (get k o) in change (get k o) with r
         end.

Lemma plain_brand_validates host name city founded locations :
  isEmpty (JS.trim name) = false -> isEmpty (JS.trim city) = false ->
  1600 <= founded <= currentYear host -> 1 <= locations <= 100 ->
  currentYear host <= Joi.MAX_SAFE_INTEGER ->
  let brand := [ ("brandName", Str name); ("yearFounded", Num founded);
                 ("headquarters", Str city); ("numberOfLocations", Num locations) ] in
  Joi.error (validate host brand (brandsSchema host)) = None
  /\ Joi.error (validate host brand (createBrandsSchema host)) = None
  /\ BrandSchema.validators host brand = true.
Proof.
  intros Hname Hcity Hfounded Hlocations Hsafe brand.
  assert (Hmax : Joi.MAX_SAFE_INTEGER = 9007199254740991) by reflexivity.
  assert (E1 : snd (Joi.validateChild host collectAll (Joi.trim (Joi.required Joi.string))
                      (Str name)) = []) by now apply validateChild_string_ok.
  assert (E2 : snd (Joi.validateChild host collectAll (Joi.trim (Joi.required Joi.string))
                      (Str city)) = []) by now apply validateChild_string_ok.
  assert (E3 : snd (Joi.validateChild host collectAll
                      (Joi.default (Num 1600) (Joi.max (currentYear host)
                         (Joi.min 1600 (Joi.required Joi.number)))) (Num founded)) = []).
  { apply validateChild_number_ok; [reflexivity | lia | cbn; intros ? [= <-]; lia ..]. }
  assert (E4 : snd (Joi.validateChild host collectAll
                      (Joi.default (Num 1) (Joi.min 1 (Joi.required Joi.number)))
                      (Num locations)) = []).
  { apply validateChild_number_ok; [reflexivity | lia | cbn; intros ? [= <-]; lia | cbn; discriminate]. }
  split; [|split].
  - apply (validate_error_none host). rewrite (validate_details host _ (brandsSchema_NoDup host)).
    unfold brandsSchema. cbn [flat_map]. unfold fieldErrors. cbn [fst snd]. subst brand.
    read_fields. rewrite E1, E2, E3, E4. reflexivity.
  - apply (validate_error_none host).
    rewrite (validate_details host _ (createBrandsSchema_NoDup host)).
    unfold createBrandsSchema. cbn [flat_map]. unfold fieldErrors. cbn [fst snd]. subst brand.
    read_fields. rewrite E1, E2, E3, E4. reflexivity.
  - unfold BrandSchema.validators. subst brand. read_fields.
    cbn [BrandSchema.requiredString BrandSchema.requiredNumber]. rewrite Hname, Hcity.
    replace (1600 <=? founded) with true by (symmetry; apply Z.leb_le; lia).
    replace (founded <=? currentYear host) with true by (symmetry; apply Z.leb_le; lia).
    replace (1 <=? locations) with true by (symmetry; apply Z.leb_le; lia).
    reflexivity.
Qed.

(** X13: when the generator returns names that are not blank and numbers
    within the bounds asked for, and the year of the call is not after the
    year the schemas were built with, every generated brand validates
    against [brandsSchema] and [createBrandsSchema] and passes the
    validators of the Mongoose schema. *)
Theorem seed_brands_conform_to_the_schemas :
  forall (host : Host) (faker : Faker) (year numberOfBrands : Z) (g : Generator)
         (brand : JS.object),
    (forall g, isEmpty (JS.trim (fst (runState companyName g))) = false) ->
    (forall g, isEmpty (JS.trim (fst (runState locationCity g))) = false) ->
    (forall lo hi g, lo <= hi -> lo <= fst (runState (numberInt lo hi) g) <= hi) ->
    1600 <= year <= currentYear host ->
    currentYear host <= Joi.MAX_SAFE_INTEGER ->
    In brand (evalState (generateBrandsData year numberOfBrands) g) ->
    Joi.error (validate host brand (brandsSchema host)) = None
    /\ Joi.error (validate host brand (createBrandsSchema host)) = None
    /\ BrandSchema.validators host brand = true.
Proof.
  intros host faker year n g brand Hname Hcity Hint Hyear Hsafe Hin.
  unfold generateBrandsData in Hin. rewrite generateLoop_brands in Hin. cbn [app] in Hin.
  apply in_map_iff in Hin as (j & <- & _). unfold brandFrom.
  set (g0 := seeded _).
  pose proof (Hname g0) as H1.
  destruct (runState companyName g0) as [name g1]. cbn [fst] in H1.
  pose proof (Hint 1600 year g1 (proj1 Hyear)) as H2.
  destruct (runState (numberInt 1600 year) g1) as [founded g2]. cbn [fst] in H2.
  pose proof (Hcity g2) as H3.
  destruct (runState locationCity g2) as [city g3]. cbn [fst] in H3.
  pose proof (Hint 1 100 g3 ltac:(lia)) as H4.
  destruct (runState (numberInt 1 100) g3) as [locations g4]. cbn [fst] in H4.
  apply plain_brand_validates; auto; lia.
Qed.

Lemma seed_brands_conform_to_the_schemas_witness :
  (forall g, isEmpty (JS.trim (fst (runState (@companyName counterFaker) g))) = false) /\
  (forall g, isEmpty (JS.trim (fst (runState (@locationCity counterFaker) g))) = false) /\
  (forall lo hi g, lo <= hi -> lo <= fst (runState (@numberInt counterFaker lo hi) g) <= hi) /\
  1600 <= 2024 <= currentYear host2024 /\
  currentYear host2024 <= Joi.MAX_SAFE_INTEGER /\
  Forall (fun brand => Joi.error (validate host2024 brand (brandsSchema host2024)) = None)
         (evalState (@generateBrandsData counterFaker 2024 2) (0 : @Generator counterFaker)).
Proof.
  assert (H1 : forall g, isEmpty (JS.trim (fst (runState (@companyName counterFaker) g))) = false)
    by reflexivity.
  assert (H2 : forall g, isEmpty (JS.trim (fst (runState (@locationCity counterFaker) g))) = false)
    by reflexivity.
  assert (H3 : forall lo hi g, lo <= hi ->
                 lo <= fst (runState (@numberInt counterFaker lo hi) g) <= hi).
  { intros lo hi g Hle. cbn. pose proof (Z.mod_pos_bound g (hi - lo + 1)). lia. }
  assert (H4 : 1600 <= 2024 <= currentYear host2024) by (cbn; lia).
  assert (H5 : currentYear host2024 <= Joi.MAX_SAFE_INTEGER) by (cbn; unfold Joi.MAX_SAFE_INTEGER; lia).
  repeat (split; [assumption|]).
  apply Forall_forall. intros brand Hin.
  exact (proj1 (seed_brands_conform_to_the_schemas host2024 counterFaker 2024 2 0 brand
                  H1 H2 H3 H4 H5 Hin)).
Defined.

(* ------------------------------------------------------------------ *)
(** ** Writes happen exactly when a record is invalid *)

(** X3: a request writes exactly when some fetched brand fails validation,
    and the bulk write then holds one operation for each such brand. *)
Theorem writes_exactly_when_some_brand_is_invalid :
  forall (host : Host) (brandModel : Model) (brands : list JS.object),
    find brandModel = Some brands ->
    existsb isWrite (snd (validateAndUpdate host brandModel)) =
    existsb (isInvalid host (brandsSchema host)) brands
    /\ length (writtenOps (snd (validateAndUpdate host brandModel))) =
       length (filter (isInvalid host (brandsSchema host)) brands).
Proof.
  intros host brandModel brands Hfind.
  pose proof (repair_length host brands) as Hlen.
  assert (Hex : existsb (isInvalid host (brandsSchema host)) brands =
                negb (Nat.eqb (length (filter (isInvalid host (brandsSchema host)) brands)) 0)).
  { clear. induction brands as [|b l IH]; [reflexivity|]. cbn [existsb filter].
    destruct (isInvalid host (brandsSchema host) b); [reflexivity | exact IH]. }
  rewrite Hex, <- Hlen. unfold validateAndUpdate. rewrite Hfind.
  destruct (updateToConformSchema host brands) as [|first others]; [split; reflexivity|].
  cbn [length Z.of_nat Z.eqb].
  destruct (bulkWrite brandModel _); cbn [snd writtenOps existsb isWrite];
    rewrite app_nil_r, !length_map; split; reflexivity.
Qed.

Lemma writes_exactly_when_some_brand_is_invalid_witness :
  find (memoryModel [conformant; aliasYear]) = Some [conformant; aliasYear] /\
  existsb isWrite (snd (validateAndUpdate host2024 (memoryModel [conformant; aliasYear]))) = true /\
  length (writtenOps (snd (validateAndUpdate host2024 (memoryModel [conformant; aliasYear])))) = 1%nat.
Proof.
  split; [reflexivity|].
  destruct (writes_exactly_when_some_brand_is_invalid host2024
              (memoryModel [conformant; aliasYear]) [conformant; aliasYear] eq_refl) as [H1 H2].
  split; [rewrite H1 | rewrite H2]; vm_compute; reflexivity.
Defined.

Lemma bulk_write_targets_the_invalid_brands_witness :
  find (memoryModel [conformant; aliasYear]) = Some [conformant; aliasYear] /\
  Forall (fun brand => exists hex, get "_id" brand = ObjectId hex) [conformant; aliasYear] /\
  map filterId (writtenOps (snd (validateAndUpdate host2024 (memoryModel [conformant; aliasYear])))) =
    [oid].
Proof.
  assert (H : Forall (fun brand => exists hex, get "_id" brand = ObjectId hex)
                     [conformant; aliasYear]).
  { repeat constructor; now exists "65f1c0ffee0ddba11ad0be57". }
  split; [reflexivity|]. split; [exact H|].
  rewrite (bulk_write_targets_the_invalid_brands host2024
             (memoryModel [conformant; aliasYear]) [conformant; aliasYear] eq_refl H).
  vm_compute. reflexivity.
Defined.

Lemma repair_adds_only_canonical_fields_witness :
  In aliasYearRepaired (updateToConformSchema host2024 [aliasYear]) /\
  exists brand, In brand [aliasYear] /\
    forall k, In k (keys aliasYearRepaired) -> In k (keys brand) \/ In k canonical.
Proof.
  assert (H : In aliasYearRepaired (updateToConformSchema host2024 [aliasYear])).
  { vm_compute. now left. }
  split; [exact H|].
  destruct (repair_adds_only_canonical_fields host2024 [aliasYear] aliasYearRepaired H)
    as (brand & Hb & _ & Hk).
  exists brand. split; [exact Hb | exact Hk].
Defined.


Lemma headquarters_error_moves_text_only_witness :
  classify "hqAddress" = Headquarters /\
  hasOwn "hqAddress" (conformError aliasHeadquarters aliasHeadquarters hqAddressUnknown) = false /\
  get "headquarters" (conformError aliasHeadquarters aliasHeadquarters hqAddressUnknown) = Str "NYC".
Proof.
  split; [reflexivity|].
  destruct (headquarters_error_moves_text_only aliasHeadquarters aliasHeadquarters
              hqAddressUnknown eq_refl) as (Hgone & Htext & _).
  split; [exact Hgone|].
  apply (Htext "NYC"); [reflexivity | reflexivity | discriminate].
Defined.

(* ------------------------------------------------------------------ *)
(** ** A year stored under another name *)

Lemma get_absent k o : hasOwn k o = false -> get k o = Undefined.
Proof.
  induction o as [|[k' v] o IH]; [reflexivity|]. cbn.
  destruct (String.eqb k k'); [discriminate | exact IH].
Qed.

Lemma delete_absent k o : hasOwn k o = false -> delete k o = o.
Proof.
  induction o as [|[k' v] o IH]; [reflexivity|]. cbn.
  destruct (String.eqb k k'); [discriminate|]. intros H. now rewrite IH.
Qed.

Lemma details_error (r : Joi.Result) d ds :
  details r = d :: ds -> Joi.error r = Some (d :: ds).
Proof. unfold details. destruct (Joi.error r); [congruence | discriminate]. Qed.

Lemma flat_map_nil {A B} (f : A -> list B) l :
  (forall x, In x l -> f x = []) -> flat_map f l = [].
Proof.
  induction l as [|x l IH]; [reflexivity|]. intros H. cbn [flat_map].
  rewrite (H x) by now left. apply IH. intros y Hy. apply H. now right.
Qed.

Lemma conformError_required_year validated brand :
  hasOwn "yearFounded" brand = false ->
  conformError validated brand
    {| Joi.type := "any.required"; Joi.contextKey := "yearFounded";
       Joi.contextValue := Undefined |} = brand.
Proof.
  intros Habsent. unfold conformError. cbn [Joi.contextKey Joi.contextValue].
  change (includes "year" (toLowerCase "yearFounded")) with true. cbv iota.
  unfold conformYear. cbn [isNaN negb andb]. now apply delete_absent.
Qed.

(** X5: a brand that lacks [yearFounded] and holds, under the one field the
    schema does not know, whose name has "year" in it, a string of digits
    that writes a year within the bounds, its other fields being fine, is
    repaired into a record that validates: the year is [yearFounded], as a
    number, and the other field is gone. *)
Theorem alias_year_is_repaired_into_a_valid_record :
  forall (host : Host) (brand : JS.object) (alias s : string),
    hasOwn "yearFounded" brand = false ->
    unknownKeysOf (brandsSchema host) brand = [alias] ->
    includes "year" (toLowerCase alias) = true ->
    get alias brand = Str s ->
    decimalDigits s = true ->
    1600 <= digitsValue 10 0 s <= currentYear host ->
    currentYear host <= Joi.MAX_SAFE_INTEGER ->
    (forall entry, In entry (brandsSchema host) -> fst entry <> "yearFounded" ->
                   fieldErrors host collectAll brand entry = []) ->
    let repaired := delete alias (set "yearFounded" (Num (digitsValue 10 0 s)) brand) in
    updateToConformSchema host [brand] = [repaired]
    /\ Joi.error (validate host repaired (brandsSchema host)) = None
    /\ get "yearFounded" repaired = Num (digitsValue 10 0 s).
Proof.
  intros host brand alias s Habsent Hunk Hyear Hval Hdigits Hrange Hsafe Hother repaired.
  set (n := digitsValue 10 0 s) in *.
  pose proof (brandsSchema_NoDup host) as Hnd.
  assert (Halias : Joi.isKnown (brandsSchema host) alias = false).
  { assert (Hin : In alias (unknownKeysOf (brandsSchema host) brand)) by (rewrite Hunk; now left).
    apply filter_In in Hin as [_ Hin]. now apply negb_true_iff in Hin. }
  assert (Hne : alias <> "yearFounded") by (intros ->; discriminate Halias).
  assert (Hdet : details (validate host brand (brandsSchema host)) =
                 [ {| Joi.type := "any.required"; Joi.contextKey := "yearFounded";
                      Joi.contextValue := Undefined |};
                   unknownDetail brand alias ]).
  { rewrite (validate_details host _ Hnd), Hunk. unfold brandsSchema. cbn [flat_map map].
    repeat match goal with
           | |- context [fieldErrors host collectAll brand (?k, ?sc)] =>
               lazymatch k with
               | "yearFounded" => fail
               | _ => rewrite (Hother (k, sc)) by (cbn; auto 10 || discriminate)
               end
           end.
    unfold fieldErrors. cbn [fst snd]. rewrite (get_absent _ _ Habsent). reflexivity. }
  assert (Hrepaired : get "yearFounded" repaired = Num n).
  { subst repaired. rewrite get_delete_other by congruence. apply get_set_same. }
  split; [|split; [|exact Hrepaired]].
  - unfold updateToConformSchema, conformBrand. cbn [map].
    rewrite (details_error _ _ _ Hdet). cbn [filterBoolean fold_left].
    rewrite (conformError_required_year _ _ Habsent).
    unfold conformError. cbn [unknownDetail Joi.contextKey Joi.contextValue].
    rewrite Hyear, Hval. unfold conformYear.
    destruct (numeric_digits s Hdigits) as [-> ->]. reflexivity.
  - apply (validate_error_none host). rewrite (validate_details host _ Hnd).
    assert (Hkeep : forall k, Joi.isKnown (brandsSchema host) k = true -> k <> "yearFounded" ->
                              get k repaired = get k brand).
    { intros k Hk Hky. subst repaired.
      rewrite get_delete_other by (intros ->; congruence). now apply get_set_other. }
    rewrite flat_map_nil.
    + cbn [app]. unfold unknownKeysOf. rewrite filter_none; [reflexivity|].
      intros k Hk. apply negb_false_iff. subst repaired.
      apply keys_delete in Hk as [Hk Hka]. apply keys_set in Hk as [->|Hk]; [reflexivity|].
      destruct (Joi.isKnown (brandsSchema host) k) eqn:E; [reflexivity|].
      exfalso. apply Hka.
      assert (Hin : In k (unknownKeysOf (brandsSchema host) brand)).
      { apply filter_In. split; [exact Hk | now rewrite E]. }
      rewrite Hunk in Hin. destruct Hin as [<-|[]]. reflexivity.
    + intros [k sc] Hin. destruct (String.eqb_spec k "yearFounded") as [->|Hk].
      * assert (sc = Joi.default (Num 1600) (Joi.max (currentYear host)
                       (Joi.min 1600 (Joi.required Joi.number)))) as ->.
        { cbn in Hin.
          repeat (destruct Hin as [H|Hin]; [first [discriminate H | now inversion H]|]).
          destruct Hin. }
        unfold fieldErrors. cbn [fst snd]. rewrite Hrepaired.
        rewrite validateChild_number_ok; [reflexivity | reflexivity | lia | ..];
          cbn; intros ? [= <-]; lia.
      * rewrite <- (Hother (k, sc) Hin Hk). unfold fieldErrors. cbn [fst snd].
        rewrite Hkeep; [reflexivity | | exact Hk].
        unfold Joi.isKnown. apply existsb_exists. exists (k, sc).
        split; [exact Hin | apply String.eqb_refl].
Qed.

Lemma alias_year_is_repaired_into_a_valid_record_witness :
  hasOwn "yearFounded" aliasYear = false /\
  unknownKeysOf (brandsSchema host2024) aliasYear = ["yearCreated"] /\
  1600 <= digitsValue 10 0 "1950" <= currentYear host2024 /\
  updateToConformSchema host2024 [aliasYear] = [aliasYearRepaired] /\
  Joi.error (validate host2024 aliasYearRepaired (brandsSchema host2024)) = None.
Proof.
  assert (H1 : hasOwn "yearFounded" aliasYear = false) by reflexivity.
  assert (H2 : unknownKeysOf (brandsSchema host2024) aliasYear = ["yearCreated"])
    by (vm_compute; reflexivity).
  assert (H3 : 1600 <= digitsValue 10 0 "1950" <= currentYear host2024).
  { change (digitsValue 10 0 "1950") with 1950. cbn. lia. }
  assert (H4 : currentYear host2024 <= Joi.MAX_SAFE_INTEGER)
    by (cbn; unfold Joi.MAX_SAFE_INTEGER; lia).
  assert (H5 : forall entry, In entry (brandsSchema host2024) -> fst entry <> "yearFounded" ->
                 fieldErrors host2024 collectAll aliasYear entry = []).
  { intros entry Hin Hk. cbn in Hin.
    repeat (destruct Hin as [<-|Hin]; [first [now destruct Hk | vm_compute; reflexivity]|]).
    destruct Hin. }
  destruct (alias_year_is_repaired_into_a_valid_record host2024 aliasYear "yearCreated" "1950"
              H1 H2 eq_refl eq_refl eq_refl H3 H4 H5) as (Hr & Hv & _).
  repeat (split; [assumption|]). exact Hv.
Defined.
